(** * MultiAccountTrade/engine.py: the order router and the state cache

    A shallow embedding of [MainEngine] (src/MultiAccountTrade/engine.py):
    the caches filled by the event handlers, the taker-order router
    ([buy], [sell], [short], [cover]) with its close-today /
    close-yesterday split, and the cancellation of active orders.

    Modelling choices.
    - Python dicts are [gmap string _].
    - Volumes are lot counts, modelled as [Z].  Prices are Python floats:
      binary64 numbers, modelled as [float] with its rounded operations.
    - [self] is threaded explicitly: a method is a function
      [MainEngine -> A * MainEngine].
    - A gateway is an external object.  The engine only calls
      [send_order] and [cancel_order] on it; the model keeps, per gateway,
      the requests it has received and a reply function giving the order
      identifier returned by [send_order].  [Method] is the engine when
      every gateway call returns; [Raises] is the router again when
      [send_order] may raise, which nothing in the engine catches.
    - [self.log] puts an [EVENT_LOG] event on the event engine's queue;
      the queue is the field [event_queue].  The formatted messages are
      kept as their format with its arguments.
    - [Engine] carries the attributes of [MainEngine] that the router does
      not use (gateway classes, registration order, subscribe gateway), for
      [__init__] and [susbcribe]; [DataEngine] is modelled over a file
      system, [pathlib] and [pandas] taken as given ([External]). *)

From Stdlib Require Import ZArith PrimFloat String List.
From stdpp Require Import base gmap strings list fin_maps.

Open Scope string_scope.
Open Scope list_scope.
Open Scope Z_scope.

(** ** vnpy.trader.constant *)

Inductive Direction := LONG | SHORT | NET.

Inductive Offset := NONE | OPEN | CLOSE | CLOSETODAY | CLOSEYESTERDAY.

Inductive OrderType := LIMIT | MARKET | STOP | FAK | FOK | RFQ.

Inductive Status :=
  SUBMITTING | NOTTRADED | PARTTRADED | ALLTRADED | CANCELLED | REJECTED.

(** The exchanges served by CTP-like gateways, and any other member of the
    enumeration by its value. *)
Inductive Exchange :=
  CFFEX | SHFE | CZCE | DCE | INE | GFEX | OTHER_EXCHANGE (value : string).

#[global] Instance Direction_eq_dec : EqDecision Direction.
Proof. solve_decision. Defined.
#[global] Instance Offset_eq_dec : EqDecision Offset.
Proof. solve_decision. Defined.
#[global] Instance OrderType_eq_dec : EqDecision OrderType.
Proof. solve_decision. Defined.
#[global] Instance Status_eq_dec : EqDecision Status.
Proof. solve_decision. Defined.
#[global] Instance Exchange_eq_dec : EqDecision Exchange.
Proof. solve_decision. Defined.

(** [Direction.X.value] *)
Definition Direction_value (d : Direction) : string :=
  match d with
  | LONG => "多"
  | SHORT => "空"
  | NET => "净"
  end.

(** [Exchange.X.value] *)
Definition Exchange_value (e : Exchange) : string :=
  match e with
  | CFFEX => "CFFEX"
  | SHFE => "SHFE"
  | CZCE => "CZCE"
  | DCE => "DCE"
  | INE => "INE"
  | GFEX => "GFEX"
  | OTHER_EXCHANGE value => value
  end.

(** [ACTIVE_STATUSES = {SUBMITTING, NOTTRADED, PARTTRADED}] *)
Definition ACTIVE_STATUSES : list Status := [SUBMITTING; NOTTRADED; PARTTRADED].

(** ** vnpy.trader.object: the fields the engine reads *)

Module TickData.
Record t := mk {
  gateway_name : string;
  symbol : string;
  exchange : Exchange;
  bid_price_1 : float;
  ask_price_1 : float;
}.
Definition vt_symbol (tick : t) : string :=
  symbol tick +:+ "." +:+ Exchange_value (exchange tick).
End TickData.

Module ContractData.
Record t := mk {
  gateway_name : string;
  symbol : string;
  exchange : Exchange;
  pricetick : float;
}.
Definition vt_symbol (contract : t) : string :=
  symbol contract +:+ "." +:+ Exchange_value (exchange contract).
End ContractData.

Module PositionData.
Record t := mk {
  gateway_name : string;
  symbol : string;
  exchange : Exchange;
  direction : Direction;
  volume : Z;
  frozen : Z;
  yd_volume : Z;
}.
Definition vt_symbol (position : t) : string :=
  symbol position +:+ "." +:+ Exchange_value (exchange position).
(** The identifier under which [_send_taker_order] looks a position up. *)
Definition vt_positionid (position : t) : string :=
  gateway_name position +:+ "." +:+ vt_symbol position +:+ "."
    +:+ Direction_value (direction position).
End PositionData.

Module AccountData.
Record t := mk {
  gateway_name : string;
  accountid : string;
  balance : float;
}.
End AccountData.

Module CancelRequest.
Record t := mk {
  orderid : string;
  symbol : string;
  exchange : Exchange;
}.
End CancelRequest.

Module OrderRequest.
Record t := mk {
  symbol : string;
  exchange : Exchange;
  direction : Direction;
  type : OrderType;
  volume : Z;
  price : float;
  offset : Offset;
}.
Definition vt_symbol (req : t) : string :=
  symbol req +:+ "." +:+ Exchange_value (exchange req).
(** [req.volume = v] *)
Definition set_volume (v : Z) (req : t) : t :=
  mk (symbol req) (exchange req) (direction req) (type req) v (price req)
     (offset req).
(** [req.offset = o] *)
Definition set_offset (o : Offset) (req : t) : t :=
  mk (symbol req) (exchange req) (direction req) (type req) (volume req)
     (price req) o.
End OrderRequest.

Module OrderData.
Record t := mk {
  gateway_name : string;
  symbol : string;
  exchange : Exchange;
  orderid : string;
  direction : Direction;
  offset : Offset;
  volume : Z;
  traded : Z;
  status : Status;
}.
Definition vt_symbol (order : t) : string :=
  symbol order +:+ "." +:+ Exchange_value (exchange order).
Definition vt_orderid (order : t) : string :=
  gateway_name order +:+ "." +:+ orderid order.
(** [return self.status in ACTIVE_STATUSES] *)
Definition is_active (order : t) : bool :=
  bool_decide (status order ∈ ACTIVE_STATUSES).
Definition create_cancel_request (order : t) : CancelRequest.t :=
  CancelRequest.mk (orderid order) (symbol order) (exchange order).
End OrderData.

Module TradeData.
Record t := mk {
  gateway_name : string;
  symbol : string;
  exchange : Exchange;
  orderid : string;
  tradeid : string;
  direction : Direction;
  offset : Offset;
  volume : Z;
}.
Definition vt_symbol (trade : t) : string :=
  symbol trade +:+ "." +:+ Exchange_value (exchange trade).
Definition vt_tradeid (trade : t) : string :=
  gateway_name trade +:+ "." +:+ tradeid trade.
End TradeData.

(** The message of a [LogData]: a literal, or one of the engine's three
    formatted messages with the values it interpolates. *)
Inductive LogMsg :=
  | Literal (msg : string)
  (** ["Send order {vt_orderid} {req.vt_symbol} {req.volume} {direction} {offset}"] *)
  | Send_order_msg (vt_orderid vt_symbol : string) (volume : Z)
      (direction : Direction) (offset : Offset)
  (** ["Trade {vt_symbol} {volume} {direction} {offset}"] *)
  | Trade_msg (vt_symbol : string) (volume : Z)
      (direction : Direction) (offset : Offset)
  (** ["Cancel active order {vt_orderid} {vt_symbol} {volume - traded} {direction} {offset}"] *)
  | Cancel_active_order_msg (vt_orderid vt_symbol : string) (remaining : Z)
      (direction : Direction) (offset : Offset).

(** [logging.INFO] *)
Definition INFO : Z := 20.

Module LogData.
Record t := mk {
  gateway_name : option string;
  msg : LogMsg;
  level : Z;
}.
End LogData.

(** ** vnpy.trader.event: the events and their payloads *)

Inductive Event :=
  | EVENT_TICK (tick : TickData.t)
  | EVENT_ORDER (order : OrderData.t)
  | EVENT_TRADE (trade : TradeData.t)
  | EVENT_ACCOUNT (account : AccountData.t)
  | EVENT_POSITION (position : PositionData.t)
  | EVENT_CONTRACT (contract : ContractData.t)
  | EVENT_LOG (log : LogData.t).

(** ** Gateways

    [send_order_reply received req] is the identifier [send_order] returns
    for [req] when the gateway has received [received] before; the empty
    string is a refused order. *)
Module Gateway.
Record t := mk {
  send_order_reply : list OrderRequest.t -> OrderRequest.t -> string;
  sent_orders : list OrderRequest.t;
  sent_cancels : list CancelRequest.t;
}.
Definition send_order (req : OrderRequest.t) (gateway : t) : string * t :=
  (send_order_reply gateway (sent_orders gateway) req,
   mk (send_order_reply gateway) (sent_orders gateway ++ [req])
      (sent_cancels gateway)).
Definition cancel_order (req : CancelRequest.t) (gateway : t) : t :=
  mk (send_order_reply gateway) (sent_orders gateway)
     (sent_cancels gateway ++ [req]).
End Gateway.


(** ** MainEngine: the state of [self] *)

Record MainEngine := mkMainEngine {
  ticks : gmap string TickData.t;
  orders : gmap string OrderData.t;
  trades : gmap string TradeData.t;
  accounts : gmap string AccountData.t;
  contracts : gmap string ContractData.t;
  positions : gmap string PositionData.t;
  active_orders : gmap string OrderData.t;
  gateways : gmap string Gateway.t;
  event_queue : list Event;
}.

Definition set_ticks (f : gmap string TickData.t -> gmap string TickData.t)
    (self : MainEngine) : MainEngine :=
  mkMainEngine (f (ticks self)) (orders self) (trades self) (accounts self)
    (contracts self) (positions self) (active_orders self) (gateways self)
    (event_queue self).

Definition set_orders (f : gmap string OrderData.t -> gmap string OrderData.t)
    (self : MainEngine) : MainEngine :=
  mkMainEngine (ticks self) (f (orders self)) (trades self) (accounts self)
    (contracts self) (positions self) (active_orders self) (gateways self)
    (event_queue self).

Definition set_trades (f : gmap string TradeData.t -> gmap string TradeData.t)
    (self : MainEngine) : MainEngine :=
  mkMainEngine (ticks self) (orders self) (f (trades self)) (accounts self)
    (contracts self) (positions self) (active_orders self) (gateways self)
    (event_queue self).

Definition set_accounts
    (f : gmap string AccountData.t -> gmap string AccountData.t)
    (self : MainEngine) : MainEngine :=
  mkMainEngine (ticks self) (orders self) (trades self) (f (accounts self))
    (contracts self) (positions self) (active_orders self) (gateways self)
    (event_queue self).

Definition set_contracts
    (f : gmap string ContractData.t -> gmap string ContractData.t)
    (self : MainEngine) : MainEngine :=
  mkMainEngine (ticks self) (orders self) (trades self) (accounts self)
    (f (contracts self)) (positions self) (active_orders self) (gateways self)
    (event_queue self).

Definition set_positions
    (f : gmap string PositionData.t -> gmap string PositionData.t)
    (self : MainEngine) : MainEngine :=
  mkMainEngine (ticks self) (orders self) (trades self) (accounts self)
    (contracts self) (f (positions self)) (active_orders self) (gateways self)
    (event_queue self).

Definition set_active_orders
    (f : gmap string OrderData.t -> gmap string OrderData.t)
    (self : MainEngine) : MainEngine :=
  mkMainEngine (ticks self) (orders self) (trades self) (accounts self)
    (contracts self) (positions self) (f (active_orders self)) (gateways self)
    (event_queue self).

Definition set_gateways (f : gmap string Gateway.t -> gmap string Gateway.t)
    (self : MainEngine) : MainEngine :=
  mkMainEngine (ticks self) (orders self) (trades self) (accounts self)
    (contracts self) (positions self) (active_orders self) (f (gateways self))
    (event_queue self).

Definition set_event_queue (f : list Event -> list Event)
    (self : MainEngine) : MainEngine :=
  mkMainEngine (ticks self) (orders self) (trades self) (accounts self)
    (contracts self) (positions self) (active_orders self) (gateways self)
    (f (event_queue self)).

(** [__init__], before any event is dispatched: empty caches; [gateways] is
    what [_add_gateways] registered; the message of its last line is queued. *)
Definition init (gateways : gmap string Gateway.t) : MainEngine :=
  mkMainEngine ∅ ∅ ∅ ∅ ∅ ∅ ∅ gateways
    [EVENT_LOG (LogData.mk None (Literal "Engine inited") INFO)].

(** ** Methods: functions of [self] returning a result and the new [self] *)

Definition Method (A : Type) : Type := MainEngine -> A * MainEngine.

Definition ret {A} (a : A) : Method A := fun self => (a, self).

Definition bind {A B} (m : Method A) (k : A -> Method B) : Method B :=
  fun self => let (a, self') := m self in k a self'.

(** Read [self]. *)
Definition read {A} (f : MainEngine -> A) : Method A :=
  fun self => (f self, self).

(** Assign to a field of [self]. *)
Definition modify (f : MainEngine -> MainEngine) : Method unit :=
  fun self => (tt, f self).

Notation "'let*' x := m 'in' k" := (bind m (fun x => k))
  (at level 10, x name, m at level 100, k at level 200).
Notation "m ;; k" := (bind m (fun _ => k))
  (at level 100, k at level 200, right associativity).

(** Modelled from the spec: [get_df] of the module [utility], which is not
    among the sources.  The getters "return either the stored value or an
    explicit not-found result"; with the default [use_df = False] the
    looked-up value is returned as it is. *)
Definition get_df {A} (data : A) : A := data.

Definition get_gateway (gateway_name : string) : Method (option Gateway.t) :=
  read (fun self => gateways self !! gateway_name).

Definition get_tick (vt_symbol : string) : Method (option TickData.t) :=
  read (fun self => get_df (ticks self !! vt_symbol)).

Definition get_order (vt_orderid : string) : Method (option OrderData.t) :=
  read (fun self => get_df (orders self !! vt_orderid)).

Definition get_active_order (vt_orderid : string)
    : Method (option OrderData.t) :=
  read (fun self => get_df (active_orders self !! vt_orderid)).

Definition get_position (vt_positionid : string)
    : Method (option PositionData.t) :=
  read (fun self => get_df (positions self !! vt_positionid)).

Definition get_contract (vt_symbol : string) : Method (option ContractData.t) :=
  read (fun self => get_df (contracts self !! vt_symbol)).

(** [log]: [self.event_engine.put(Event(EVENT_LOG, LogData(gateway_name, msg, level)))] *)
Definition log (msg : LogMsg) (gateway_name : option string) : Method unit :=
  modify (set_event_queue
            (fun q => q ++ [EVENT_LOG (LogData.mk gateway_name msg INFO)])).

(** [gateway.send_order(req)] on the gateway object registered under
    [gateway_name]: the object records the request and returns an id. *)
Definition gateway_send_order (gateway_name : string) (gateway : Gateway.t)
    (req : OrderRequest.t) : Method string :=
  let (vt_orderid, gateway') := Gateway.send_order req gateway in
  modify (set_gateways (fun gs => <[gateway_name := gateway']> gs));;
  ret vt_orderid.

(** [gateway.cancel_order(req)] *)
Definition gateway_cancel_order (gateway_name : string) (gateway : Gateway.t)
    (req : CancelRequest.t) : Method unit :=
  modify (set_gateways
            (fun gs => <[gateway_name := Gateway.cancel_order req gateway]> gs)).

Definition _send_order (req : OrderRequest.t) (gateway_name : string)
    : Method string :=
  let* gateway := get_gateway gateway_name in
  match gateway with
  | Some gateway =>
      let* vt_orderid := gateway_send_order gateway_name gateway req in
      log (Send_order_msg vt_orderid (OrderRequest.vt_symbol req)
             (OrderRequest.volume req) (OrderRequest.direction req)
             (OrderRequest.offset req))
          (Some gateway_name);;
      ret vt_orderid
  | None => ret ""
  end.

(** [for req in reqs: vt_orderids.append(self._send_order(req, gateway_name))] *)
Fixpoint send_reqs (reqs : list OrderRequest.t) (gateway_name : string)
    (vt_orderids : list string) : Method (list string) :=
  match reqs with
  | [] => ret vt_orderids
  | req :: reqs =>
      let* vt_orderid := _send_order req gateway_name in
      send_reqs reqs gateway_name (vt_orderids ++ [vt_orderid])
  end.

(** [contract.exchange in [Exchange.SHFE, Exchange.INE]] *)
Definition aging_exchange (exchange : Exchange) : bool :=
  bool_decide (exchange ∈ [SHFE; INE]).

Definition _send_taker_order (vt_symbol : string) (volume : Z)
    (direction : Direction) (offset : Offset) (gateway_name : string)
    : Method (list string) :=
  let reqs : list OrderRequest.t := [] in
  let vt_orderids : list string := [] in
  let* tick := get_tick vt_symbol in
  let* contract := get_contract vt_symbol in
  match tick, contract with
  | Some tick, Some contract =>
      let price :=
        if decide (direction = LONG)
        then (TickData.ask_price_1 tick + ContractData.pricetick contract * 2)%float
        else (TickData.bid_price_1 tick - ContractData.pricetick contract * 2)%float
      in
      let req :=
        OrderRequest.mk (ContractData.symbol contract)
          (ContractData.exchange contract) direction LIMIT volume price offset
      in
      if decide (offset = CLOSE) then
        let* position :=
          if decide (direction = LONG)
          then get_position (gateway_name +:+ "."
                 +:+ ContractData.vt_symbol contract +:+ "."
                 +:+ Direction_value SHORT)
          else get_position (gateway_name +:+ "."
                 +:+ ContractData.vt_symbol contract +:+ "."
                 +:+ Direction_value LONG)
        in
        match position with
        | None =>
            log (Literal "Position data is none") (Some gateway_name);;
            ret (vt_orderids ++ [""])
        | Some position =>
            if PositionData.volume position - PositionData.frozen position
               <? volume
            then
              log (Literal "No enough close volume") (Some gateway_name);;
              ret (vt_orderids ++ [""])
            else if aging_exchange (ContractData.exchange contract) then
              if PositionData.yd_volume position =? 0 then
                let req := OrderRequest.set_offset CLOSETODAY req in
                send_reqs (reqs ++ [req]) gateway_name vt_orderids
              else if PositionData.volume position
                      =? PositionData.yd_volume position
              then
                let req := OrderRequest.set_offset CLOSEYESTERDAY req in
                send_reqs (reqs ++ [req]) gateway_name vt_orderids
              else
                let req :=
                  OrderRequest.set_volume
                    (PositionData.yd_volume position
                     - PositionData.frozen position) req in
                let req := OrderRequest.set_offset CLOSEYESTERDAY req in
                let req_td := req in
                let req_td :=
                  OrderRequest.set_volume (volume - OrderRequest.volume req)
                    req_td in
                let req_td := OrderRequest.set_offset CLOSETODAY req_td in
                let reqs := reqs ++ [req_td] in
                send_reqs (reqs ++ [req]) gateway_name vt_orderids
            else
              send_reqs (reqs ++ [req]) gateway_name vt_orderids
        end
      else
        send_reqs (reqs ++ [req]) gateway_name vt_orderids
  | _, _ =>
      log (Literal "Tick or contract data is none") (Some gateway_name);;
      ret (vt_orderids ++ [""])
  end.

Definition _cancel_order (req : CancelRequest.t) (gateway_name : string)
    : Method unit :=
  let* gateway := get_gateway gateway_name in
  match gateway with
  | Some gateway => gateway_cancel_order gateway_name gateway req
  | None => ret tt
  end.

Definition buy (vt_symbol : string) (volume : Z) (gateway_name : string)
    : Method (list string) :=
  _send_taker_order vt_symbol volume LONG OPEN gateway_name.

Definition sell (vt_symbol : string) (volume : Z) (gateway_name : string)
    : Method (list string) :=
  _send_taker_order vt_symbol volume SHORT CLOSE gateway_name.

Definition short (vt_symbol : string) (volume : Z) (gateway_name : string)
    : Method (list string) :=
  _send_taker_order vt_symbol volume SHORT OPEN gateway_name.

Definition cover (vt_symbol : string) (volume : Z) (gateway_name : string)
    : Method (list string) :=
  _send_taker_order vt_symbol volume LONG CLOSE gateway_name.

Definition cancel_active_order (vt_orderid : string) : Method unit :=
  let* active_order := get_active_order vt_orderid in
  match active_order with
  | Some active_order =>
      let req := OrderData.create_cancel_request active_order in
      _cancel_order req (OrderData.gateway_name active_order);;
      log (Cancel_active_order_msg (OrderData.vt_orderid active_order)
             (OrderData.vt_symbol active_order)
             (OrderData.volume active_order - OrderData.traded active_order)
             (OrderData.direction active_order)
             (OrderData.offset active_order))
          None
  | None => ret tt
  end.

(** ** Event handlers *)

Definition _process_tick_event (tick : TickData.t) : Method unit :=
  modify (set_ticks (fun d => <[TickData.vt_symbol tick := tick]> d)).

Definition _process_order_event (order : OrderData.t) : Method unit :=
  modify (set_orders (fun d => <[OrderData.vt_orderid order := order]> d));;
  if OrderData.is_active order then
    modify (set_active_orders
              (fun d => <[OrderData.vt_orderid order := order]> d))
  else
    let* present :=
      read (fun self =>
              bool_decide (is_Some
                (active_orders self !! OrderData.vt_orderid order))) in
    if present then
      modify (set_active_orders (fun d => delete (OrderData.vt_orderid order) d))
    else ret tt.

Definition _process_trade_event (trade : TradeData.t) : Method unit :=
  modify (set_trades (fun d => <[TradeData.vt_tradeid trade := trade]> d));;
  log (Trade_msg (TradeData.vt_symbol trade) (TradeData.volume trade)
         (TradeData.direction trade) (TradeData.offset trade))
      (Some (TradeData.gateway_name trade)).

Definition _process_position_event (position : PositionData.t) : Method unit :=
  modify (set_positions
            (fun d => <[PositionData.vt_positionid position := position]> d)).

Definition _process_contract_event (contract : ContractData.t) : Method unit :=
  let* cached := get_contract (ContractData.vt_symbol contract) in
  match cached with
  | None =>
      modify (set_contracts
                (fun d => <[ContractData.vt_symbol contract := contract]> d))
  | Some _ => ret tt
  end.

Definition _process_account_event (account : AccountData.t) : Method unit :=
  modify (set_accounts
            (fun d => <[AccountData.gateway_name account := account]> d)).

(** [_register_process_event]: the handler the event engine calls for each
    kind of event.  [EVENT_LOG] goes to the log engine and leaves the main
    engine as it is. *)
Definition process_event (event : Event) : Method unit :=
  match event with
  | EVENT_TICK tick => _process_tick_event tick
  | EVENT_ORDER order => _process_order_event order
  | EVENT_TRADE trade => _process_trade_event trade
  | EVENT_ACCOUNT account => _process_account_event account
  | EVENT_POSITION position => _process_position_event position
  | EVENT_CONTRACT contract => _process_contract_event contract
  | EVENT_LOG _ => ret tt
  end.

(** [events] dispatched one after the other. *)
Fixpoint process_events (events : list Event) : Method unit :=
  match events with
  | [] => ret tt
  | event :: events => process_event event;; process_events events
  end.

(** * Vocabulary of the statements *)

(** The four trading intents of the public surface. *)
Inductive Intent := Buy | Sell | Short | Cover.

Definition intent (i : Intent)
    : string -> Z -> string -> Method (list string) :=
  match i with
  | Buy => buy
  | Sell => sell
  | Short => short
  | Cover => cover
  end.

Definition intent_direction (i : Intent) : Direction :=
  match i with
  | Buy | Cover => LONG
  | Sell | Short => SHORT
  end.

Definition intent_offset (i : Intent) : Offset :=
  match i with
  | Buy | Short => OPEN
  | Sell | Cover => CLOSE
  end.

(** The direction of the position a close intent exits. *)
Definition opposing (i : Intent) : Direction :=
  match intent_direction i with
  | LONG => SHORT
  | _ => LONG
  end.

(** The limit price of step 2: two ticks through the opposite quote. *)
Definition taker_price (direction : Direction) (tick : TickData.t)
    (contract : ContractData.t) : float :=
  match direction with
  | LONG => (TickData.ask_price_1 tick + ContractData.pricetick contract * 2)%float
  | _ => (TickData.bid_price_1 tick - ContractData.pricetick contract * 2)%float
  end.

(** The request of intent [i] for [contract], with the given volume and
    offset. *)
Definition leg (i : Intent) (tick : TickData.t) (contract : ContractData.t)
    (volume : Z) (offset : Offset) : OrderRequest.t :=
  OrderRequest.mk (ContractData.symbol contract)
    (ContractData.exchange contract) (intent_direction i) LIMIT volume
    (taker_price (intent_direction i) tick contract) offset.

(** The key of the position a close intent looks up. *)
Definition opposing_positionid (i : Intent) (gateway_name : string)
    (contract : ContractData.t) : string :=
  gateway_name +:+ "." +:+ ContractData.vt_symbol contract +:+ "."
    +:+ Direction_value (opposing i).

(** The order requests the gateway registered under [gateway_name] has
    received through [send_order], oldest first. *)
Definition received (gateway_name : string) (self : MainEngine)
    : list OrderRequest.t :=
  match gateways self !! gateway_name with
  | Some gateway => Gateway.sent_orders gateway
  | None => []
  end.

(** The log event [self.log(msg, gateway_name)] puts on the queue. *)
Definition log_event (msg : LogMsg) (gateway_name : string) : Event :=
  EVENT_LOG (LogData.mk (Some gateway_name) msg INFO).

(** The log event of one call of [_send_order] that reached a gateway. *)
Definition send_order_event (gateway_name vt_orderid : string)
    (req : OrderRequest.t) : Event :=
  log_event (Send_order_msg vt_orderid (OrderRequest.vt_symbol req)
               (OrderRequest.volume req) (OrderRequest.direction req)
               (OrderRequest.offset req)) gateway_name.

(** The outcome [r] of an intent that gave up before any submission: the
    single empty identifier, one logged literal, no call on any gateway. *)
Definition aborted (msg gateway_name : string) (self : MainEngine)
    (r : list string * MainEngine) : Prop :=
  r.1 = [""]
  /\ event_queue r.2 = event_queue self ++ [log_event (Literal msg) gateway_name]
  /\ gateways r.2 = gateways self.

(** The outcome [r] of an intent that handed [reqs], in this order, to the
    gateway [gateway] registered under [gateway_name]: the identifiers are
    the gateway's replies, the gateway has received exactly [reqs] more, one
    message per request is logged, and no other gateway is called. *)
Definition submitted (reqs : list OrderRequest.t) (gateway_name : string)
    (gateway : Gateway.t) (self : MainEngine)
    (r : list string * MainEngine) : Prop :=
  length r.1 = length reqs
  /\ received gateway_name r.2 = Gateway.sent_orders gateway ++ reqs
  /\ (forall i vt_orderid req,
        r.1 !! i = Some vt_orderid -> reqs !! i = Some req ->
        vt_orderid
          = Gateway.send_order_reply gateway
              (Gateway.sent_orders gateway ++ take i reqs) req)
  /\ event_queue r.2
       = event_queue self
           ++ zip_with (send_order_event gateway_name) r.1 reqs
  /\ (forall name, name <> gateway_name ->
        gateways r.2 !! name = gateways self !! name).

(** The order event for [vt_orderid] dispatched last in [events], if any;
    [latest] is the one dispatched before [events]. *)
Fixpoint latest_order (vt_orderid : string) (events : list Event)
    (latest : option OrderData.t) : option OrderData.t :=
  match events with
  | [] => latest
  | EVENT_ORDER order :: events =>
      latest_order vt_orderid events
        (if decide (OrderData.vt_orderid order = vt_orderid)
         then Some order else latest)
  | _ :: events => latest_order vt_orderid events latest
  end.

(** The active orders are the cached orders that are active. *)
Definition active_orders_match (self : MainEngine) : Prop :=
  forall vt_orderid,
    active_orders self !! vt_orderid
    = match orders self !! vt_orderid with
      | Some order => if OrderData.is_active order then Some order else None
      | None => None
      end.

(** ** Submission to a registered gateway, in closed form *)

(** The gateway after it has received [reqs], and its replies. *)
Fixpoint send_all (gateway : Gateway.t) (reqs : list OrderRequest.t)
    : Gateway.t :=
  match reqs with
  | [] => gateway
  | req :: reqs => send_all (Gateway.send_order req gateway).2 reqs
  end.

Fixpoint replies (gateway : Gateway.t) (reqs : list OrderRequest.t)
    : list string :=
  match reqs with
  | [] => []
  | req :: reqs =>
      (Gateway.send_order req gateway).1
        :: replies (Gateway.send_order req gateway).2 reqs
  end.

(** [self] after the gateway registered under [gateway_name] has received
    [reqs] and each submission has been logged. *)
Definition after_send (gateway_name : string) (gateway : Gateway.t)
    (reqs : list OrderRequest.t) (self : MainEngine) : MainEngine :=
  mkMainEngine (ticks self) (orders self) (trades self) (accounts self)
    (contracts self) (positions self) (active_orders self)
    (<[gateway_name := send_all gateway reqs]> (gateways self))
    (event_queue self
       ++ zip_with (send_order_event gateway_name) (replies gateway reqs) reqs).

(** ** The statements of the specification that the router does not satisfy
    as they are written *)

(** Mixed aging, as specified: the close-yesterday leg is leg A, submitted
    first, and the close-today leg is leg B, submitted second. *)
Definition mixed_close_yesterday_first (i : Intent) (vt_symbol : string)
    (volume : Z) (gateway_name : string) (tick : TickData.t)
    (contract : ContractData.t) (position : PositionData.t)
    (gateway : Gateway.t) (self : MainEngine) : Prop :=
  ticks self !! vt_symbol = Some tick ->
  contracts self !! vt_symbol = Some contract ->
  intent_offset i = CLOSE ->
  positions self !! opposing_positionid i gateway_name contract
    = Some position ->
  gateways self !! gateway_name = Some gateway ->
  ContractData.exchange contract ∈ [SHFE; INE] ->
  0 < PositionData.yd_volume position < PositionData.volume position ->
  volume <= PositionData.volume position - PositionData.frozen position ->
  let volumeA :=
    PositionData.yd_volume position - PositionData.frozen position in
  let volumeB := volume - volumeA in
  submitted
    [leg i tick contract volumeA CLOSEYESTERDAY;
     leg i tick contract volumeB CLOSETODAY]
    gateway_name gateway self (intent i vt_symbol volume gateway_name self)
  /\ volumeA + volumeB = volume.

(** The propagation policy, as specified: whenever the returned sequence
    holds an empty identifier, a message has been logged. *)
Definition every_failure_logged (i : Intent) (vt_symbol : string)
    (volume : Z) (gateway_name : string) (self : MainEngine) : Prop :=
  let r := intent i vt_symbol volume gateway_name self in
  "" ∈ r.1 ->
  exists events,
    events <> [] /\ event_queue r.2 = event_queue self ++ events.

(** ** A concrete engine

    One gateway ["G1"], which numbers the orders it receives; the contract
    ["X"] with tick size 1 on [exchange], quoted 99/101; a long position in
    it.  The caches are filled by dispatching the events. *)
Definition G1 : Gateway.t :=
  Gateway.mk
    (fun received _ =>
       match length received with
       | O => "G1.1"
       | S O => "G1.2"
       | _ => "G1.3"
       end)
    [] [].

Definition example_contract (exchange : Exchange) : ContractData.t :=
  ContractData.mk "G1" "X" exchange 1.

Definition example_tick (exchange : Exchange) : TickData.t :=
  TickData.mk "G1" "X" exchange 99 101.

Definition example_position (exchange : Exchange)
    (volume frozen yd_volume : Z) : PositionData.t :=
  PositionData.mk "G1" "X" exchange LONG volume frozen yd_volume.

Definition example_engine (exchange : Exchange) (volume frozen yd_volume : Z)
    : MainEngine :=
  (process_events
     [EVENT_CONTRACT (example_contract exchange);
      EVENT_TICK (example_tick exchange);
      EVENT_POSITION (example_position exchange volume frozen yd_volume)]
     (init {["G1" := G1]})).2.

(** The contract ["Y"] with tick size 0.1, quoted 0.1/0.1 (the binary64
    number nearest to 0.1). *)
Definition example_engine_small_tick : MainEngine :=
  (process_events
     [EVENT_CONTRACT (ContractData.mk "G1" "Y" DCE 0x1.999999999999ap-4);
      EVENT_TICK
        (TickData.mk "G1" "Y" DCE 0x1.999999999999ap-4 0x1.999999999999ap-4)]
     (init {["G1" := G1]})).2.

(** An order of gateway ["G1"] for the contract ["X"]. *)
Definition example_order (orderid : string) (status : Status) : OrderData.t :=
  OrderData.mk "G1" "X" SHFE orderid LONG OPEN 5 0 status.

(** ** Sequences of calls on the engine

    What reaches the engine after its construction: an event dispatched by
    the event engine, a trading intent, a cancellation. *)
Inductive Call :=
  | Dispatch (event : Event)
  | Trade (i : Intent) (vt_symbol : string) (volume : Z)
      (gateway_name : string)
  | Cancel (vt_orderid : string).

Definition call (c : Call) : Method unit :=
  match c with
  | Dispatch event => process_event event
  | Trade i vt_symbol volume gateway_name =>
      intent i vt_symbol volume gateway_name;; ret tt
  | Cancel vt_orderid => cancel_active_order vt_orderid
  end.

Fixpoint calls (cs : list Call) : Method unit :=
  match cs with
  | [] => ret tt
  | c :: cs => call c;; calls cs
  end.

(** The events among the calls [cs], in order. *)
Fixpoint dispatched (cs : list Call) : list Event :=
  match cs with
  | [] => []
  | Dispatch event :: cs => event :: dispatched cs
  | _ :: cs => dispatched cs
  end.

(** The payload stored last under [key] by [events], where [pick] gives the
    key and the payload an event stores; [cached] is what was stored before. *)
Fixpoint latest {A} (pick : Event -> option (string * A)) (key : string)
    (events : list Event) (cached : option A) : option A :=
  match events with
  | [] => cached
  | event :: events =>
      latest pick key events
        match pick event with
        | Some (k, a) => if decide (k = key) then Some a else cached
        | None => cached
        end
  end.

Definition tick_of (event : Event) : option (string * TickData.t) :=
  match event with
  | EVENT_TICK tick => Some (TickData.vt_symbol tick, tick)
  | _ => None
  end.

Definition position_of (event : Event) : option (string * PositionData.t) :=
  match event with
  | EVENT_POSITION position =>
      Some (PositionData.vt_positionid position, position)
  | _ => None
  end.

Definition account_of (event : Event) : option (string * AccountData.t) :=
  match event with
  | EVENT_ACCOUNT account => Some (AccountData.gateway_name account, account)
  | _ => None
  end.

Definition trade_of (event : Event) : option (string * TradeData.t) :=
  match event with
  | EVENT_TRADE trade => Some (TradeData.vt_tradeid trade, trade)
  | _ => None
  end.

Definition order_of (event : Event) : option (string * OrderData.t) :=
  match event with
  | EVENT_ORDER order => Some (OrderData.vt_orderid order, order)
  | _ => None
  end.

(** The contract of the first contract event of [events] for [vt_symbol]. *)
Fixpoint first_contract (vt_symbol : string) (events : list Event)
    : option ContractData.t :=
  match events with
  | [] => None
  | EVENT_CONTRACT contract :: events =>
      if decide (ContractData.vt_symbol contract = vt_symbol)
      then Some contract
      else first_contract vt_symbol events
  | _ :: events => first_contract vt_symbol events
  end.

(** The seven caches of [a] and [b] are the same. *)
Definition same_caches (a b : MainEngine) : Prop :=
  ticks a = ticks b /\ orders a = orders b /\ trades a = trades b
  /\ accounts a = accounts b /\ contracts a = contracts b
  /\ positions a = positions b /\ active_orders a = active_orders b.

(** The gateway registered under [gateway_name] in [b] is the one of [a]
    after more requests: same replies, the requests of [a] as a prefix. *)
Definition gateway_extends (a b : Gateway.t) : Prop :=
  Gateway.send_order_reply b = Gateway.send_order_reply a
  /\ Gateway.sent_orders a `prefix_of` Gateway.sent_orders b
  /\ Gateway.sent_cancels a `prefix_of` Gateway.sent_cancels b.

(** No gateway is added to or removed from the registry [a] in [b], and each
    gateway of [b] is the one of [a] after more requests. *)
Definition registry_extends (a b : gmap string Gateway.t) : Prop :=
  forall name,
    match a !! name with
    | Some gateway =>
        exists gateway', b !! name = Some gateway'
                         /\ gateway_extends gateway gateway'
    | None => b !! name = None
    end.

(** The messages the trade events among [events] queue, in order. *)
Fixpoint trade_logs (events : list Event) : list Event :=
  match events with
  | [] => []
  | EVENT_TRADE trade :: events =>
      log_event (Trade_msg (TradeData.vt_symbol trade) (TradeData.volume trade)
                   (TradeData.direction trade) (TradeData.offset trade))
        (TradeData.gateway_name trade)
        :: trade_logs events
  | _ :: events => trade_logs events
  end.

(** ** The rest of [MainEngine]: gateway classes, registration, subscription

    [Engine] adds to [MainEngine] the attributes the router does not use:
    the order in which the keys of [self.gateways] were inserted (a Python
    dict keeps it), [gateway_classes], [susbcribe_gateway_name], and the
    [connect] and [subscribe] calls made on the gateways.  The data engine
    and the log engine that [__init__] creates first are left out. *)

Module SubscribeRequest.
Record t := mk {
  symbol : string;
  exchange : Exchange;
}.
End SubscribeRequest.

(** A gateway class: its [__name__], and the gateway it constructs for a
    gateway name.  As [BaseGateway.__init__] does, the constructed object
    carries the name it was constructed with as its [gateway_name]. *)
Record GatewayClass := mkGatewayClass {
  class_name : string;
  instantiate : string -> Gateway.t;
}.

Inductive GatewayCall :=
  | Connect (setting : gmap string string)
  | Subscribe (req : SubscribeRequest.t).

(** The exceptions the engine's own code raises, and any exception a
    library call raises, by its name. *)
Inductive Exception :=
  | IndexError
  | AttributeError
  | Raised (name : string).

Record Engine := mkEngine {
  core : MainEngine;
  gateway_names : list string;
  gateway_classes : gmap string GatewayClass;
  susbcribe_gateway_name : option string;
  gateway_calls : list (string * GatewayCall);
}.

(** [self.gateways[gateway_name] = gateway]: a new key goes last, a key
    already there keeps its place. *)
Definition register_gateway (gateway_name : string) (gateway : Gateway.t)
    (self : Engine) : Engine :=
  mkEngine
    (set_gateways (fun gs => <[gateway_name := gateway]> gs) (core self))
    (if decide (gateway_name ∈ gateway_names self)
     then gateway_names self
     else gateway_names self ++ [gateway_name])
    (gateway_classes self) (susbcribe_gateway_name self) (gateway_calls self).

(** A call of [connect] or [subscribe] on the gateway under [gateway_name]. *)
Definition call_gateway (gateway_name : string) (c : GatewayCall)
    (self : Engine) : Engine :=
  mkEngine (core self) (gateway_names self) (gateway_classes self)
    (susbcribe_gateway_name self) (gateway_calls self ++ [(gateway_name, c)]).

(** [self.log(msg, gateway_name)] *)
Definition log_in (msg : LogMsg) (gateway_name : option string)
    (self : Engine) : Engine :=
  mkEngine (log msg gateway_name (core self)).2 (gateway_names self)
    (gateway_classes self) (susbcribe_gateway_name self) (gateway_calls self).

Definition get_gateway_class (gateway_class_name : string) (self : Engine)
    : option GatewayClass :=
  gateway_classes self !! gateway_class_name.

Definition get_subscribe_gateway_name (self : Engine) : option string :=
  susbcribe_gateway_name self.

(** [list(self.gateways.keys())] *)
Definition get_all_gateway_names (self : Engine) : list string :=
  gateway_names self.

Definition _add_gateway (gateway_class_name gateway_name : string)
    (self : Engine) : Engine :=
  match get_gateway_class gateway_class_name self with
  | Some gateway_class =>
      let gateway := instantiate gateway_class gateway_name in
      register_gateway gateway_name gateway self
  | None => self
  end.

(** [self.get_all_gateways()[0].gateway_name], guarded by [is None]. *)
Definition _add_subscribe_gateway_name (self : Engine)
    : Exception + Engine :=
  match susbcribe_gateway_name self with
  | None =>
      match get_all_gateway_names self with
      | [] => inl IndexError
      | gateway_name :: _ =>
          inr (mkEngine (core self) (gateway_names self)
                 (gateway_classes self) (Some gateway_name)
                 (gateway_calls self))
      end
  | Some _ => inr self
  end.

(** [settings.items()] is the list of its entries in insertion order.
    [if gateway_class_name:] fails for a missing and for an empty entry. *)
Fixpoint add_gateways_loop (settings : list (string * gmap string string))
    (self : Engine) : Engine :=
  match settings with
  | [] => self
  | (gateway_name, setting) :: settings =>
      add_gateways_loop settings
        match setting !! "Gateway" with
        | Some gateway_class_name =>
            if decide (gateway_class_name = "") then self
            else _add_gateway gateway_class_name gateway_name self
        | None => self
        end
  end.

Definition _add_gateways (settings : list (string * gmap string string))
    (self : Engine) : Exception + Engine :=
  _add_subscribe_gateway_name (add_gateways_loop settings self).

Definition _add_gateway_class (gateway_class : GatewayClass) (self : Engine)
    : Engine :=
  mkEngine (core self) (gateway_names self)
    (<[class_name gateway_class := gateway_class]> (gateway_classes self))
    (susbcribe_gateway_name self) (gateway_calls self).

Fixpoint _add_gateway_classes (gateway_classes : list GatewayClass)
    (self : Engine) : Engine :=
  match gateway_classes with
  | [] => self
  | gateway_class :: gateway_classes =>
      _add_gateway_classes gateway_classes
        (_add_gateway_class gateway_class self)
  end.

Definition _connect (setting : gmap string string) (gateway_name : string)
    (self : Engine) : Engine :=
  match (get_gateway gateway_name (core self)).1 with
  | Some _ => call_gateway gateway_name (Connect setting) self
  | None => self
  end.

Fixpoint _connect_gateways (settings : list (string * gmap string string))
    (self : Engine) : Engine :=
  match settings with
  | [] => self
  | (gateway_name, setting) :: settings =>
      _connect_gateways settings (_connect setting gateway_name self)
  end.

Definition _subscribe (req : SubscribeRequest.t) (gateway_name : string)
    (self : Engine) : Engine :=
  match (get_gateway gateway_name (core self)).1 with
  | Some _ => call_gateway gateway_name (Subscribe req) self
  | None => self
  end.

(** [for vt_symbol in vt_symbols: ...] of [susbcribe] *)
Fixpoint subscribe_loop (vt_symbols : list string) (gateway_name : string)
    (self : Engine) : Engine :=
  match vt_symbols with
  | [] => self
  | vt_symbol :: vt_symbols =>
      subscribe_loop vt_symbols gateway_name
        match (get_contract vt_symbol (core self)).1 with
        | Some contract =>
            let req :=
              SubscribeRequest.mk (ContractData.symbol contract)
                (ContractData.exchange contract) in
            _subscribe req gateway_name self
        | None => self
        end
  end.

(** [str vt_symbols] is Python's rendering of the list in the message
    [f"Subscribe {vt_symbols}"]. *)
Definition susbcribe (str : list string -> string) (vt_symbols : list string)
    (self : Engine) : Engine :=
  match get_subscribe_gateway_name self with
  | Some gateway_name =>
      if decide (gateway_name = "") then self
      else
        let self := subscribe_loop vt_symbols gateway_name self in
        log_in (Literal ("Subscribe " +:+ str vt_symbols)) (Some gateway_name)
          self
  | None => self
  end.

(** [__init__], from the creation of the caches on, without the two
    engines. *)
Definition __init__ (gateway_classes : list GatewayClass)
    (settings : list (string * gmap string string)) : Exception + Engine :=
  let self := mkEngine (mkMainEngine ∅ ∅ ∅ ∅ ∅ ∅ ∅ ∅ []) [] ∅ None [] in
  let self := _add_gateway_classes gateway_classes self in
  match _add_gateways settings self with
  | inl e => inl e
  | inr self =>
      let self := _connect_gateways settings self in
      inr (log_in (Literal "Engine inited") None self)
  end.

(** The class a settings entry names, when it names a registered one. *)
Definition setting_class (classes : gmap string GatewayClass)
    (setting : gmap string string) : option GatewayClass :=
  match setting !! "Gateway" with
  | Some gateway_class_name =>
      if decide (gateway_class_name = "") then None
      else classes !! gateway_class_name
  | None => None
  end.

(** The entries of [settings] that name a registered gateway class. *)
Definition usable (classes : gmap string GatewayClass)
    (settings : list (string * gmap string string))
    : list (string * gmap string string) :=
  filter (fun entry => is_Some (setting_class classes entry.2)) settings.

(** The subscribe requests of the symbols of [vt_symbols] that have a
    contract cached, in the order of [vt_symbols]. *)
Definition subscribe_requests (contracts : gmap string ContractData.t)
    (vt_symbols : list string) : list SubscribeRequest.t :=
  omap (fun vt_symbol =>
          match contracts !! vt_symbol with
          | Some contract =>
              Some (SubscribeRequest.mk (ContractData.symbol contract)
                      (ContractData.exchange contract))
          | None => None
          end) vt_symbols.

(** The registration loop changes [a] into [b] in the gateways only. *)
Definition same_but_gateways (a b : Engine) : Prop :=
  same_caches (core a) (core b)
  /\ event_queue (core a) = event_queue (core b)
  /\ gateway_classes a = gateway_classes b
  /\ susbcribe_gateway_name a = susbcribe_gateway_name b
  /\ gateway_calls a = gateway_calls b.

(** The engine when [__init__] has created its attributes. *)
Definition blank : Engine :=
  mkEngine (mkMainEngine ∅ ∅ ∅ ∅ ∅ ∅ ∅ ∅ []) [] ∅ None [].

(** [self.gateway_classes] after [_add_gateway_classes]. *)
Definition registered_classes (classes : list GatewayClass)
    : gmap string GatewayClass :=
  gateway_classes (_add_gateway_classes classes blank).

(** A gateway class and settings naming it, another class, and none. *)
Definition example_class : GatewayClass :=
  mkGatewayClass "CtpGateway" (fun _ => G1).

Definition example_settings : list (string * gmap string string) :=
  [("A", {["Gateway" := "CtpGateway"]});
   ("B", {["Gateway" := "IbGateway"]});
   ("C", ∅);
   ("D", {["Gateway" := "CtpGateway"; "Host" := "tcp"]})].

(** ** DataEngine

    The file system, [pathlib] and [pandas] are outside the repository:
    they are taken as given.  A library call returns the file system after
    it and the exception it raised, if any. *)
Class External := {
  Path : Type;
  DataFrame : Type;
  FileSystem : Type;
  (** [dir_path.joinpath(file_name)] *)
  joinpath : Path -> string -> Path;
  (** [file_path.exists()] *)
  path_exists : Path -> FileSystem -> bool;
  (** [file_path.unlink()] *)
  unlink : Path -> FileSystem -> FileSystem * option Exception;
  (** [pandas.read_csv(file_path)]; [file_path] may be [None] *)
  read_csv : option Path -> FileSystem -> Exception + DataFrame;
  (** [data.to_csv(file_path, index=False)]; [file_path] may be [None] *)
  to_csv : DataFrame -> option Path -> FileSystem
           -> FileSystem * option Exception;
}.

Section DataEngineModel.
Context {ext : External}.

(** The attributes of the data engine, the main engine it refers to, and
    the file system it works on. *)
Record DataEngine := mkDataEngine {
  main_engine : MainEngine;
  datas : gmap string DataFrame;
  load_file_paths : gmap string Path;
  backup_file_paths : gmap string Path;
  load_dir_path : Path;
  backup_dir_path : Path;
  files : FileSystem;
}.

Definition set_main_engine (m : MainEngine) (self : DataEngine) : DataEngine :=
  mkDataEngine m (datas self) (load_file_paths self) (backup_file_paths self)
    (load_dir_path self) (backup_dir_path self) (files self).

Definition set_datas (d : gmap string DataFrame) (self : DataEngine)
    : DataEngine :=
  mkDataEngine (main_engine self) d (load_file_paths self)
    (backup_file_paths self) (load_dir_path self) (backup_dir_path self)
    (files self).

Definition set_files (fs : FileSystem) (self : DataEngine) : DataEngine :=
  mkDataEngine (main_engine self) (datas self) (load_file_paths self)
    (backup_file_paths self) (load_dir_path self) (backup_dir_path self) fs.

Definition get_load_dir_path (self : DataEngine) : Path := load_dir_path self.

Definition get_backup_dir_path (self : DataEngine) : Path :=
  backup_dir_path self.

Definition add_load_file_path (gateway_name file_name : string)
    (self : DataEngine) : DataEngine :=
  mkDataEngine (main_engine self) (datas self)
    (<[gateway_name := joinpath (load_dir_path self) file_name]>
       (load_file_paths self))
    (backup_file_paths self) (load_dir_path self) (backup_dir_path self)
    (files self).

Definition get_load_file_path (gateway_name : string) (self : DataEngine)
    : option Path :=
  load_file_paths self !! gateway_name.

Definition add_backup_file_path (gateway_name file_name : string)
    (self : DataEngine) : DataEngine :=
  mkDataEngine (main_engine self) (datas self) (load_file_paths self)
    (<[gateway_name := joinpath (backup_dir_path self) file_name]>
       (backup_file_paths self))
    (load_dir_path self) (backup_dir_path self) (files self).

Definition get_backup_file_path (gateway_name : string) (self : DataEngine)
    : option Path :=
  backup_file_paths self !! gateway_name.

(** [if file_path.exists(): file_path.unlink()]; [None.exists()] raises
    AttributeError. *)
Definition delete_file (file_path : option Path) (self : DataEngine)
    : (Exception + unit) * DataEngine :=
  match file_path with
  | None => (inl AttributeError, self)
  | Some file_path =>
      if path_exists file_path (files self) then
        let (fs, raised) := unlink file_path (files self) in
        match raised with
        | Some e => (inl e, set_files fs self)
        | None => (inr tt, set_files fs self)
        end
      else (inr tt, self)
  end.

Definition delete_load_file (gateway_name : string) (self : DataEngine)
    : (Exception + unit) * DataEngine :=
  delete_file (get_load_file_path gateway_name self) self.

Definition delete_backup_file (gateway_name : string) (self : DataEngine)
    : (Exception + unit) * DataEngine :=
  delete_file (get_backup_file_path gateway_name self) self.

Definition add_data (gateway_name : string) (data : DataFrame)
    (self : DataEngine) : DataEngine :=
  set_datas (<[gateway_name := data]> (datas self)) self.

Definition get_data (gateway_name : string) (self : DataEngine)
    : option DataFrame :=
  datas self !! gateway_name.

(** [self.datas.pop(gateway_name, None)] *)
Definition delete_data (gateway_name : string) (self : DataEngine)
    : DataEngine :=
  set_datas (delete gateway_name (datas self)) self.

Definition load_data (gateway_name : string) (self : DataEngine)
    : (Exception + DataFrame) * DataEngine :=
  match get_backup_file_path gateway_name self with
  | None => (inl AttributeError, self)
  | Some backup_path =>
      let file_path :=
        if path_exists backup_path (files self) then Some backup_path
        else get_load_file_path gateway_name self in
      match read_csv file_path (files self) with
      | inl e => (inl e, self)
      | inr data =>
          let self := add_data gateway_name data self in
          let self :=
            set_main_engine
              (log (Literal "Data loaded") (Some gateway_name)
                 (main_engine self)).2 self in
          (inr data, self)
      end
  end.

Definition backup_data (gateway_name : string) (self : DataEngine)
    : (Exception + unit) * DataEngine :=
  let data := get_data gateway_name self in
  let file_path := get_backup_file_path gateway_name self in
  match data with
  | None => (inl AttributeError, self)
  | Some data =>
      let (fs, raised) := to_csv data file_path (files self) in
      match raised with
      | Some e => (inl e, set_files fs self)
      | None => (inr tt, set_files fs self)
      end
  end.

End DataEngineModel.

(** A small world for the examples: paths are strings, a data frame is the
    text of its file, the file system maps a path to the text of the file. *)
#[local] Instance example_external : External := {|
  Path := string;
  DataFrame := string;
  FileSystem := gmap string string;
  joinpath := fun dir_path file_name => dir_path +:+ "/" +:+ file_name;
  path_exists := fun file_path fs => bool_decide (is_Some (fs !! file_path));
  unlink := fun file_path fs => (delete file_path fs, None);
  read_csv := fun file_path fs =>
    match file_path with
    | Some file_path =>
        match fs !! file_path with
        | Some text => inr text
        | None => inl (Raised "FileNotFoundError")
        end
    | None => inl (Raised "ValueError")
    end;
  to_csv := fun data file_path fs =>
    match file_path with
    | Some file_path => (<[file_path := data]> fs, None)
    | None => (fs, None)
    end;
|}.

(** The load file of ["G1"] is there and its path is added. *)
Definition example_loadable : DataEngine :=
  add_load_file_path "G1" "G1.csv"
    (mkDataEngine (init {["G1" := G1]}) ∅ ∅ ∅ "order" "backup"
       {["order/G1.csv" := "orders"]}).

(** The backup path of ["G1"] is added as well. *)
Definition example_data_engine : DataEngine :=
  add_backup_file_path "G1" "G1_backup.csv" example_loadable.

(** Data is held for ["G1"]. *)
Definition example_filled : DataEngine :=
  add_data "G1" "filled" example_data_engine.

(** ** The router when [gateway.send_order] raises

    Nothing in the engine catches an exception.  One raised by
    [gateway.send_order] ends [_send_order], the loop of
    [_send_taker_order] and the intent, and reaches the caller.

    [raising gateway_name received req] tells whether [send_order] raises
    for [req] on the gateway registered under [gateway_name] when it has
    received [received], and what it raises; the engine then sees the
    gateway as it was before the call.  The definitions below are those of
    the router again, with this outcome of the call. *)
Definition Raising : Type :=
  string -> list OrderRequest.t -> OrderRequest.t -> option Exception.

Definition Fallible (A : Type) : Type :=
  MainEngine -> (Exception + A) * MainEngine.

Definition fret {A} (a : A) : Fallible A := fun self => (inr a, self).

Definition fbind {A B} (m : Fallible A) (k : A -> Fallible B) : Fallible B :=
  fun self =>
    match m self with
    | (inl e, self') => (inl e, self')
    | (inr a, self') => k a self'
    end.

(** A method that raises nothing. *)
Definition lift {A} (m : Method A) : Fallible A :=
  fun self => let (a, self') := m self in (inr a, self').

Notation "'let?' x := m 'in' k" := (fbind m (fun x => k))
  (at level 10, x name, m at level 100, k at level 200).

Module Raises.

Definition gateway_send_order (raising : Raising) (gateway_name : string)
    (gateway : Gateway.t) (req : OrderRequest.t) : Fallible string :=
  fun self =>
    match raising gateway_name (Gateway.sent_orders gateway) req with
    | Some e => (inl e, self)
    | None => lift (gateway_send_order gateway_name gateway req) self
    end.

Definition _send_order (raising : Raising) (req : OrderRequest.t)
    (gateway_name : string) : Fallible string :=
  let? gateway := lift (get_gateway gateway_name) in
  match gateway with
  | Some gateway =>
      let? vt_orderid :=
        gateway_send_order raising gateway_name gateway req in
      let? _ :=
        lift (log (Send_order_msg vt_orderid (OrderRequest.vt_symbol req)
                     (OrderRequest.volume req) (OrderRequest.direction req)
                     (OrderRequest.offset req))
                (Some gateway_name)) in
      fret vt_orderid
  | None => fret ""
  end.

Fixpoint send_reqs (raising : Raising) (reqs : list OrderRequest.t)
    (gateway_name : string) (vt_orderids : list string)
    : Fallible (list string) :=
  match reqs with
  | [] => fret vt_orderids
  | req :: reqs =>
      let? vt_orderid := _send_order raising req gateway_name in
      send_reqs raising reqs gateway_name (vt_orderids ++ [vt_orderid])
  end.

Definition _send_taker_order (raising : Raising) (vt_symbol : string)
    (volume : Z) (direction : Direction) (offset : Offset)
    (gateway_name : string) : Fallible (list string) :=
  let reqs : list OrderRequest.t := [] in
  let vt_orderids : list string := [] in
  let? tick := lift (get_tick vt_symbol) in
  let? contract := lift (get_contract vt_symbol) in
  match tick, contract with
  | Some tick, Some contract =>
      let price :=
        if decide (direction = LONG)
        then (TickData.ask_price_1 tick + ContractData.pricetick contract * 2)%float
        else (TickData.bid_price_1 tick - ContractData.pricetick contract * 2)%float
      in
      let req :=
        OrderRequest.mk (ContractData.symbol contract)
          (ContractData.exchange contract) direction LIMIT volume price offset
      in
      if decide (offset = CLOSE) then
        let? position :=
          if decide (direction = LONG)
          then lift (get_position (gateway_name +:+ "."
                       +:+ ContractData.vt_symbol contract +:+ "."
                       +:+ Direction_value SHORT))
          else lift (get_position (gateway_name +:+ "."
                       +:+ ContractData.vt_symbol contract +:+ "."
                       +:+ Direction_value LONG))
        in
        match position with
        | None =>
            let? _ :=
              lift (log (Literal "Position data is none")
                      (Some gateway_name)) in
            fret (vt_orderids ++ [""])
        | Some position =>
            if PositionData.volume position - PositionData.frozen position
               <? volume
            then
              let? _ :=
                lift (log (Literal "No enough close volume")
                        (Some gateway_name)) in
              fret (vt_orderids ++ [""])
            else if aging_exchange (ContractData.exchange contract) then
              if PositionData.yd_volume position =? 0 then
                let req := OrderRequest.set_offset CLOSETODAY req in
                send_reqs raising (reqs ++ [req]) gateway_name vt_orderids
              else if PositionData.volume position
                      =? PositionData.yd_volume position
              then
                let req := OrderRequest.set_offset CLOSEYESTERDAY req in
                send_reqs raising (reqs ++ [req]) gateway_name vt_orderids
              else
                let req :=
                  OrderRequest.set_volume
                    (PositionData.yd_volume position
                     - PositionData.frozen position) req in
                let req := OrderRequest.set_offset CLOSEYESTERDAY req in
                let req_td := req in
                let req_td :=
                  OrderRequest.set_volume (volume - OrderRequest.volume req)
                    req_td in
                let req_td := OrderRequest.set_offset CLOSETODAY req_td in
                let reqs := reqs ++ [req_td] in
                send_reqs raising (reqs ++ [req]) gateway_name vt_orderids
            else
              send_reqs raising (reqs ++ [req]) gateway_name vt_orderids
        end
      else
        send_reqs raising (reqs ++ [req]) gateway_name vt_orderids
  | _, _ =>
      let? _ :=
        lift (log (Literal "Tick or contract data is none")
                (Some gateway_name)) in
      fret (vt_orderids ++ [""])
  end.

Definition buy (raising : Raising) (vt_symbol : string) (volume : Z)
    (gateway_name : string) : Fallible (list string) :=
  _send_taker_order raising vt_symbol volume LONG OPEN gateway_name.

Definition sell (raising : Raising) (vt_symbol : string) (volume : Z)
    (gateway_name : string) : Fallible (list string) :=
  _send_taker_order raising vt_symbol volume SHORT CLOSE gateway_name.

Definition short (raising : Raising) (vt_symbol : string) (volume : Z)
    (gateway_name : string) : Fallible (list string) :=
  _send_taker_order raising vt_symbol volume SHORT OPEN gateway_name.

Definition cover (raising : Raising) (vt_symbol : string) (volume : Z)
    (gateway_name : string) : Fallible (list string) :=
  _send_taker_order raising vt_symbol volume LONG CLOSE gateway_name.

Definition intent (raising : Raising) (i : Intent)
    : string -> Z -> string -> Fallible (list string) :=
  match i with
  | Buy => buy raising
  | Sell => sell raising
  | Short => short raising
  | Cover => cover raising
  end.

End Raises.

(** The gateway call raises [e] for a close-yesterday request and returns
    for any other. *)
Definition example_raising (e : Exception) : Raising :=
  fun _ _ req =>
    match OrderRequest.offset req with
    | CLOSEYESTERDAY => Some e
    | _ => None
    end.

(** * Auxiliary results *)

Lemma MainEngine_eq (a b : MainEngine) :
  ticks a = ticks b -> orders a = orders b -> trades a = trades b ->
  accounts a = accounts b -> contracts a = contracts b ->
  positions a = positions b -> active_orders a = active_orders b ->
  gateways a = gateways b -> event_queue a = event_queue b -> a = b.
Proof. destruct a, b; simpl; intros; subst; reflexivity. Qed.

Lemma after_send_nil gateway_name gateway self :
  gateways self !! gateway_name = Some gateway ->
  after_send gateway_name gateway [] self = self.
Proof.
  intros Hg. apply MainEngine_eq; simpl; try reflexivity.
  - apply insert_id, Hg.
  - apply app_nil_r.
Qed.

Lemma _send_order_registered req gateway_name gateway self :
  gateways self !! gateway_name = Some gateway ->
  _send_order req gateway_name self
  = ((Gateway.send_order req gateway).1,
     after_send gateway_name gateway [req] self).
Proof.
  intros Hg. unfold _send_order, bind, get_gateway, read. rewrite Hg.
  reflexivity.
Qed.

Lemma _send_order_unregistered req gateway_name self :
  gateways self !! gateway_name = None ->
  _send_order req gateway_name self = ("", self).
Proof.
  intros Hg. unfold _send_order, bind, get_gateway, read. rewrite Hg.
  reflexivity.
Qed.

Lemma after_send_cons gateway_name gateway req reqs self :
  after_send gateway_name (Gateway.send_order req gateway).2 reqs
    (after_send gateway_name gateway [req] self)
  = after_send gateway_name gateway (req :: reqs) self.
Proof.
  apply MainEngine_eq; simpl; try reflexivity.
  - apply insert_insert_eq.
  - rewrite <- app_assoc. reflexivity.
Qed.

Lemma send_reqs_registered reqs : forall gateway_name gateway vt_orderids self,
  gateways self !! gateway_name = Some gateway ->
  send_reqs reqs gateway_name vt_orderids self
  = (vt_orderids ++ replies gateway reqs,
     after_send gateway_name gateway reqs self).
Proof.
  induction reqs as [|req reqs IH]; intros gateway_name gateway ids self Hg.
  - simpl. unfold ret. rewrite app_nil_r, after_send_nil by exact Hg.
    reflexivity.
  - simpl. unfold bind. rewrite (_send_order_registered _ _ _ _ Hg).
    rewrite (IH gateway_name (Gateway.send_order req gateway).2).
    + rewrite after_send_cons, <- app_assoc. reflexivity.
    + simpl. apply lookup_insert_eq.
Qed.

Lemma send_reqs_unregistered reqs : forall gateway_name vt_orderids self,
  gateways self !! gateway_name = None ->
  send_reqs reqs gateway_name vt_orderids self
  = (vt_orderids ++ map (fun _ => "") reqs, self).
Proof.
  induction reqs as [|req reqs IH]; intros gateway_name ids self Hg.
  - simpl. rewrite app_nil_r. reflexivity.
  - simpl. unfold bind. rewrite (_send_order_unregistered _ _ _ Hg).
    rewrite (IH _ _ _ Hg), <- app_assoc. reflexivity.
Qed.

Lemma sent_orders_send_all reqs : forall gateway,
  Gateway.sent_orders (send_all gateway reqs)
  = Gateway.sent_orders gateway ++ reqs.
Proof.
  induction reqs as [|req reqs IH]; intros gateway; simpl.
  - symmetry. apply app_nil_r.
  - rewrite IH. simpl. rewrite <- app_assoc. reflexivity.
Qed.

Lemma length_replies reqs : forall gateway,
  length (replies gateway reqs) = length reqs.
Proof.
  induction reqs as [|req reqs IH]; intros gateway; simpl; [|rewrite IH];
    reflexivity.
Qed.

Lemma replies_lookup reqs : forall gateway i vt_orderid req,
  replies gateway reqs !! i = Some vt_orderid -> reqs !! i = Some req ->
  vt_orderid
  = Gateway.send_order_reply gateway
      (Gateway.sent_orders gateway ++ take i reqs) req.
Proof.
  induction reqs as [|r reqs IH]; intros gateway i id req Hid Hreq.
  - destruct i; discriminate.
  - destruct i as [|i]; simpl in *.
    + injection Hid as <-. injection Hreq as <-. rewrite app_nil_r.
      reflexivity.
    + rewrite (IH _ _ _ _ Hid Hreq). simpl. rewrite <- app_assoc.
      reflexivity.
Qed.

(** Handing [reqs] to a registered gateway has the outcome [submitted]. *)
Lemma send_reqs_submitted reqs gateway_name gateway self :
  gateways self !! gateway_name = Some gateway ->
  submitted reqs gateway_name gateway self
    (send_reqs reqs gateway_name [] self).
Proof.
  intros Hg. rewrite (send_reqs_registered _ _ _ _ _ Hg). simpl.
  unfold submitted, received. simpl.
  repeat split.
  - apply length_replies.
  - rewrite lookup_insert_eq. apply sent_orders_send_all.
  - intros i id req. apply replies_lookup.
  - intros name Hne. apply lookup_insert_ne. congruence.
Qed.

Lemma intent_unfold i vt_symbol volume gateway_name :
  intent i vt_symbol volume gateway_name
  = _send_taker_order vt_symbol volume (intent_direction i) (intent_offset i)
      gateway_name.
Proof. destruct i; reflexivity. Qed.

Lemma is_active_spec order :
  OrderData.is_active order = true
  <-> OrderData.status order ∉ [ALLTRADED; CANCELLED; REJECTED].
Proof.
  unfold OrderData.is_active, ACTIVE_STATUSES. rewrite bool_decide_eq_true.
  rewrite !elem_of_cons, !elem_of_nil.
  destruct (OrderData.status order); split; intros H;
    try (intros [?|[?|[?|[]]]]; discriminate);
    try (destruct H as [?|[?|[?|[]]]]; discriminate);
    try (exfalso; apply H; tauto); tauto.
Qed.

(** The router, case by case. *)

Ltac unfold_router :=
  rewrite intent_unfold;
  unfold _send_taker_order, bind, get_tick, get_contract, get_position, read,
    get_df, log, modify, ret.

Lemma intent_missing_market_data i vt_symbol volume gateway_name self :
  ticks self !! vt_symbol = None \/ contracts self !! vt_symbol = None ->
  aborted "Tick or contract data is none" gateway_name self
    (intent i vt_symbol volume gateway_name self).
Proof.
  intros H. unfold_router.
  destruct (ticks self !! vt_symbol) as [tick|] eqn:Ht;
    destruct (contracts self !! vt_symbol) as [contract|] eqn:Hc;
    try (destruct H; discriminate);
    unfold aborted; simpl; auto.
Qed.

Lemma intent_open i vt_symbol volume gateway_name tick contract self :
  ticks self !! vt_symbol = Some tick ->
  contracts self !! vt_symbol = Some contract ->
  intent_offset i = OPEN ->
  intent i vt_symbol volume gateway_name self
  = send_reqs [leg i tick contract volume OPEN] gateway_name [] self.
Proof.
  intros Ht Hc Ho. unfold_router. rewrite Ht, Hc.
  destruct i; try discriminate Ho; reflexivity.
Qed.

Lemma intent_close_no_position i vt_symbol volume gateway_name tick contract
    self :
  ticks self !! vt_symbol = Some tick ->
  contracts self !! vt_symbol = Some contract ->
  intent_offset i = CLOSE ->
  positions self !! opposing_positionid i gateway_name contract = None ->
  aborted "Position data is none" gateway_name self
    (intent i vt_symbol volume gateway_name self).
Proof.
  intros Ht Hc Ho Hp. unfold_router. rewrite Ht, Hc.
  destruct i; try discriminate Ho; simpl;
    unfold opposing_positionid in Hp; simpl in Hp; rewrite Hp;
    unfold aborted; simpl; auto.
Qed.

Section Close.
Context (i : Intent) (vt_symbol : string) (volume : Z)
  (gateway_name : string) (tick : TickData.t) (contract : ContractData.t)
  (position : PositionData.t) (self : MainEngine).
Hypothesis Htick : ticks self !! vt_symbol = Some tick.
Hypothesis Hcontract : contracts self !! vt_symbol = Some contract.
Hypothesis Hclose : intent_offset i = CLOSE.
Hypothesis Hposition :
  positions self !! opposing_positionid i gateway_name contract
  = Some position.

Ltac enter_close :=
    unfold_router; rewrite Htick, Hcontract;
    destruct i; try discriminate Hclose; simpl;
    unfold opposing_positionid in Hposition; simpl in Hposition;
    rewrite Hposition.

Lemma intent_close_insufficient :
  PositionData.volume position - PositionData.frozen position < volume ->
  aborted "No enough close volume" gateway_name self
    (intent i vt_symbol volume gateway_name self).
Proof.
  intros Hlt. apply Z.ltb_lt in Hlt.
  enter_close; rewrite Hlt; unfold aborted; simpl; auto.
Qed.

Lemma intent_close_plain :
  volume <= PositionData.volume position - PositionData.frozen position ->
  aging_exchange (ContractData.exchange contract) = false ->
  intent i vt_symbol volume gateway_name self
  = send_reqs [leg i tick contract volume CLOSE] gateway_name [] self.
Proof.
  intros Hle Hag. apply Z.ltb_ge in Hle.
  enter_close; rewrite Hle, Hag; reflexivity.
Qed.

Lemma intent_close_today :
  volume <= PositionData.volume position - PositionData.frozen position ->
  aging_exchange (ContractData.exchange contract) = true ->
  PositionData.yd_volume position = 0 ->
  intent i vt_symbol volume gateway_name self
  = send_reqs [leg i tick contract volume CLOSETODAY] gateway_name [] self.
Proof.
  intros Hle Hag Hyd. apply Z.ltb_ge in Hle.
  enter_close; rewrite Hle, Hag, Hyd; reflexivity.
Qed.

Lemma intent_close_yesterday :
  volume <= PositionData.volume position - PositionData.frozen position ->
  aging_exchange (ContractData.exchange contract) = true ->
  PositionData.yd_volume position <> 0 ->
  PositionData.volume position = PositionData.yd_volume position ->
  intent i vt_symbol volume gateway_name self
  = send_reqs [leg i tick contract volume CLOSEYESTERDAY] gateway_name []
      self.
Proof.
  intros Hle Hag Hyd Heq. apply Z.ltb_ge in Hle. apply Z.eqb_neq in Hyd.
  apply Z.eqb_eq in Heq.
  enter_close; rewrite Hle, Hag, Hyd, Heq; reflexivity.
Qed.

Lemma intent_close_mixed :
  volume <= PositionData.volume position - PositionData.frozen position ->
  aging_exchange (ContractData.exchange contract) = true ->
  PositionData.yd_volume position <> 0 ->
  PositionData.volume position <> PositionData.yd_volume position ->
  intent i vt_symbol volume gateway_name self
  = send_reqs
      [leg i tick contract
         (volume - (PositionData.yd_volume position
                    - PositionData.frozen position)) CLOSETODAY;
       leg i tick contract
         (PositionData.yd_volume position - PositionData.frozen position)
         CLOSEYESTERDAY]
      gateway_name [] self.
Proof.
  intros Hle Hag Hyd Hne. apply Z.ltb_ge in Hle. apply Z.eqb_neq in Hyd.
  apply Z.eqb_neq in Hne.
  enter_close; rewrite Hle, Hag, Hyd, Hne; reflexivity.
Qed.

End Close.

(** When the router's own checks pass, the intent is the submission of a
    non-empty list of legs, each at the taker price. *)
Lemma intent_checks_pass i vt_symbol volume gateway_name tick contract self :
  ticks self !! vt_symbol = Some tick ->
  contracts self !! vt_symbol = Some contract ->
  (intent_offset i = OPEN
   \/ exists position,
        intent_offset i = CLOSE
        /\ positions self !! opposing_positionid i gateway_name contract
           = Some position
        /\ volume
           <= PositionData.volume position - PositionData.frozen position) ->
  exists reqs,
    reqs <> []
    /\ Forall (fun req => exists v o, req = leg i tick contract v o) reqs
    /\ intent i vt_symbol volume gateway_name self
       = send_reqs reqs gateway_name [] self.
Proof.
  intros Ht Hc [Ho | (position & Ho & Hp & Hle)].
  - eexists. split; [|split; [|apply (intent_open _ _ _ _ _ _ _ Ht Hc Ho)]].
    + discriminate.
    + repeat constructor. eauto.
  - destruct (aging_exchange (ContractData.exchange contract)) eqn:Hag;
      [destruct (decide (PositionData.yd_volume position = 0)) as [Hyd|Hyd];
       [|destruct (decide (PositionData.volume position
                           = PositionData.yd_volume position)) as [He|He]]|].
    + eexists. split; [|split;
        [|apply (intent_close_today _ _ _ _ _ _ _ _ Ht Hc Ho Hp Hle Hag Hyd)]].
      * discriminate.
      * repeat constructor. eauto.
    + eexists. split; [|split;
        [|apply (intent_close_yesterday _ _ _ _ _ _ _ _ Ht Hc Ho Hp Hle Hag
                   Hyd He)]].
      * discriminate.
      * repeat constructor. eauto.
    + eexists. split; [|split;
        [|apply (intent_close_mixed _ _ _ _ _ _ _ _ Ht Hc Ho Hp Hle Hag
                   Hyd He)]].
      * discriminate.
      * repeat constructor; eauto.
    + eexists. split; [|split;
        [|apply (intent_close_plain _ _ _ _ _ _ _ _ Ht Hc Ho Hp Hle Hag)]].
      * discriminate.
      * repeat constructor. eauto.
Qed.

Lemma intent_offset_cases i : intent_offset i = OPEN \/ intent_offset i = CLOSE.
Proof. destruct i; auto. Qed.

(** Every intent either gives up with one logged literal, or is the
    submission of a non-empty list of legs at the taker price. *)
Lemma intent_outcome i vt_symbol volume gateway_name self :
  (exists msg,
     aborted msg gateway_name self
       (intent i vt_symbol volume gateway_name self))
  \/ (exists tick contract reqs,
        ticks self !! vt_symbol = Some tick
        /\ contracts self !! vt_symbol = Some contract
        /\ reqs <> []
        /\ Forall (fun req => exists v o, req = leg i tick contract v o) reqs
        /\ intent i vt_symbol volume gateway_name self
           = send_reqs reqs gateway_name [] self).
Proof.
  destruct (ticks self !! vt_symbol) as [tick|] eqn:Ht;
    [destruct (contracts self !! vt_symbol) as [contract|] eqn:Hc|].
  - destruct (intent_offset_cases i) as [Ho|Ho].
    + right. exists tick, contract.
      destruct (intent_checks_pass i vt_symbol volume gateway_name tick
                  contract self Ht Hc (or_introl Ho)) as (reqs & ? & ? & ?).
      exists reqs. auto.
    + destruct (positions self !! opposing_positionid i gateway_name contract)
        as [position|] eqn:Hp.
      * destruct (Z_lt_le_dec
                    (PositionData.volume position
                     - PositionData.frozen position) volume) as [Hlt|Hle].
        -- left. eexists.
           apply (intent_close_insufficient _ _ _ _ _ _ _ _ Ht Hc Ho Hp Hlt).
        -- right. exists tick, contract.
           destruct (intent_checks_pass i vt_symbol volume gateway_name tick
                       contract self Ht Hc) as (reqs & ? & ? & ?).
           { right. exists position. auto. }
           exists reqs. auto.
      * left. eexists.
        apply (intent_close_no_position _ _ _ _ _ _ _ Ht Hc Ho Hp).
  - left. eexists. apply intent_missing_market_data. auto.
  - left. eexists. apply intent_missing_market_data. auto.
Qed.

Lemma received_after_send gateway_name gateway reqs self :
  received gateway_name (after_send gateway_name gateway reqs self)
  = Gateway.sent_orders gateway ++ reqs.
Proof.
  unfold received. simpl. rewrite lookup_insert_eq.
  apply sent_orders_send_all.
Qed.

Lemma leg_price i tick contract v o :
  OrderRequest.price (leg i tick contract v o)
  = if decide (intent_direction i = LONG)
    then (TickData.ask_price_1 tick + ContractData.pricetick contract * 2)%float
    else (TickData.bid_price_1 tick - ContractData.pricetick contract * 2)%float.
Proof. destruct i; reflexivity. Qed.

(** * The router *)

(** C3: a trading intent (buy, sell, short, cover) on a symbol whose quote
    or whose contract is not cached returns exactly the one-element list
    holding the empty identifier, logs "Tick or contract data is none", and
    calls no gateway. *)
Theorem missing_market_data_aborts (i : Intent) (vt_symbol : string)
    (volume : Z) (gateway_name : string) (self : MainEngine) :
  ticks self !! vt_symbol = None \/ contracts self !! vt_symbol = None ->
  let r := intent i vt_symbol volume gateway_name self in
  r.1 = [""]
  /\ event_queue r.2
     = event_queue self
         ++ [EVENT_LOG (LogData.mk (Some gateway_name)
                          (Literal "Tick or contract data is none") INFO)]
  /\ gateways r.2 = gateways self.
Proof. intros H. apply (intent_missing_market_data i _ _ _ _ H). Qed.

Lemma missing_market_data_aborts_witness :
  let self := init {["G1" := G1]} in
  let r := intent Sell "X.SHFE" 5 "G1" self in
  (ticks self !! "X.SHFE" = None \/ contracts self !! "X.SHFE" = None)
  /\ r.1 = [""]
  /\ gateways r.2 = gateways self.
Proof.
  pose proof (missing_market_data_aborts Sell "X.SHFE" 5 "G1"
                (init {["G1" := G1]}) (or_introl eq_refl)) as H.
  split; [left; reflexivity|].
  split; [apply H | apply H].
Defined.

(** C4: a close intent whose opposing position has an available volume
    (total minus frozen) smaller than the requested volume returns the
    single empty identifier, logs "No enough close volume" and calls no
    gateway, whatever the exchange of the contract. *)
Theorem insufficient_close_volume_aborts (i : Intent) (vt_symbol : string)
    (volume : Z) (gateway_name : string) (tick : TickData.t)
    (contract : ContractData.t) (position : PositionData.t)
    (self : MainEngine) :
  ticks self !! vt_symbol = Some tick ->
  contracts self !! vt_symbol = Some contract ->
  intent_offset i = CLOSE ->
  positions self !! opposing_positionid i gateway_name contract
    = Some position ->
  PositionData.volume position - PositionData.frozen position < volume ->
  let r := intent i vt_symbol volume gateway_name self in
  r.1 = [""]
  /\ event_queue r.2
     = event_queue self
         ++ [EVENT_LOG (LogData.mk (Some gateway_name)
                          (Literal "No enough close volume") INFO)]
  /\ gateways r.2 = gateways self.
Proof.
  intros Ht Hc Ho Hp Hlt.
  apply (intent_close_insufficient _ _ _ _ _ _ _ _ Ht Hc Ho Hp Hlt).
Qed.

Lemma insufficient_close_volume_aborts_witness :
  let self := example_engine SHFE 10 6 4 in
  let r := intent Sell "X.SHFE" 5 "G1" self in
  10 - 6 < 5 /\ r.1 = [""] /\ gateways r.2 = gateways self.
Proof.
  pose proof (insufficient_close_volume_aborts Sell "X.SHFE" 5 "G1"
                (example_tick SHFE) (example_contract SHFE)
                (example_position SHFE 10 6 4) (example_engine SHFE 10 6 4)
                eq_refl eq_refl eq_refl eq_refl eq_refl) as H.
  split; [reflexivity|]. split; apply H.
Defined.

(** C6: a close intent on an exchange without position aging (neither SHFE
    nor INE), whose opposing position exists with an available volume of at
    least the requested volume, submits exactly one order request, with the
    plain close offset and the requested volume. *)
Theorem plain_close_single_leg (i : Intent) (vt_symbol : string)
    (volume : Z) (gateway_name : string) (tick : TickData.t)
    (contract : ContractData.t) (position : PositionData.t)
    (gateway : Gateway.t) (self : MainEngine) :
  ticks self !! vt_symbol = Some tick ->
  contracts self !! vt_symbol = Some contract ->
  intent_offset i = CLOSE ->
  positions self !! opposing_positionid i gateway_name contract
    = Some position ->
  gateways self !! gateway_name = Some gateway ->
  ContractData.exchange contract ∉ [SHFE; INE] ->
  volume <= PositionData.volume position - PositionData.frozen position ->
  let req := leg i tick contract volume CLOSE in
  submitted [req] gateway_name gateway self
    (intent i vt_symbol volume gateway_name self)
  /\ OrderRequest.offset req = CLOSE
  /\ OrderRequest.volume req = volume.
Proof.
  intros Ht Hc Ho Hp Hg Hex Hle. simpl. split; [|split; reflexivity].
  rewrite (intent_close_plain _ _ _ _ _ _ _ _ Ht Hc Ho Hp Hle).
  - apply send_reqs_submitted, Hg.
  - apply bool_decide_eq_false, Hex.
Qed.

Lemma plain_close_single_leg_witness :
  let self := example_engine DCE 10 1 4 in
  received "G1" (intent Sell "X.DCE" 5 "G1" self).2
  = [OrderRequest.mk "X" DCE SHORT LIMIT 5 97 CLOSE].
Proof.
  assert (Hex : DCE ∉ [SHFE; INE]).
  { intros H. apply elem_of_cons in H as [H|H]; [discriminate|].
    apply elem_of_cons in H as [H|H]; [discriminate|].
    apply elem_of_nil in H. exact H. }
  pose proof (plain_close_single_leg Sell "X.DCE" 5 "G1"
                (example_tick DCE) (example_contract DCE)
                (example_position DCE 10 1 4) G1 (example_engine DCE 10 1 4)
                eq_refl eq_refl eq_refl eq_refl eq_refl Hex
                ltac:(vm_compute; discriminate)) as [(_ & H & _) _].
  exact H.
Defined.

(** C7: with the quote and the contract cached, every order request an
    intent submits carries the limit price best ask plus 2 ticks for a long
    order (buy, cover) and best bid minus 2 ticks for a short order (sell,
    short), computed as Python computes it, in binary64.  An open intent on
    a registered gateway submits exactly one request, at that price, with
    the requested volume, the direction of the intent and the open offset;
    a close intent that passes the position and availability checks on a
    registered gateway submits at least one request, and each of its
    requests is a limit order at that price, in the direction of the intent,
    for the symbol and exchange of the contract.  At tick size 1 and quote
    99/101, buying 5 submits one request: price 103, volume 5, long, open
    (the witness, which also has the double 0.30000000000000004 that
    0.1 + 0.1 * 2 gives). *)
Theorem taker_limit_price (i : Intent) (vt_symbol : string) (volume : Z)
    (gateway_name : string) (tick : TickData.t) (contract : ContractData.t)
    (self : MainEngine) :
  ticks self !! vt_symbol = Some tick ->
  contracts self !! vt_symbol = Some contract ->
  let r := intent i vt_symbol volume gateway_name self in
  let price :=
    if decide (intent_direction i = LONG)
    then (TickData.ask_price_1 tick + ContractData.pricetick contract * 2)%float
    else (TickData.bid_price_1 tick - ContractData.pricetick contract * 2)%float
  in
  (exists reqs,
     received gateway_name r.2 = received gateway_name self ++ reqs
     /\ Forall (fun req => OrderRequest.price req = price) reqs)
  /\ (forall gateway,
        intent_offset i = OPEN ->
        gateways self !! gateway_name = Some gateway ->
        submitted
          [OrderRequest.mk (ContractData.symbol contract)
             (ContractData.exchange contract) (intent_direction i) LIMIT
             volume price OPEN]
          gateway_name gateway self r)
  /\ (forall gateway position,
        intent_offset i = CLOSE ->
        positions self !! opposing_positionid i gateway_name contract
          = Some position ->
        volume
          <= PositionData.volume position - PositionData.frozen position ->
        gateways self !! gateway_name = Some gateway ->
        exists reqs,
          reqs <> []
          /\ length r.1 = length reqs
          /\ received gateway_name r.2 = Gateway.sent_orders gateway ++ reqs
          /\ Forall (fun req =>
                       OrderRequest.price req = price
                       /\ OrderRequest.type req = LIMIT
                       /\ OrderRequest.direction req = intent_direction i
                       /\ OrderRequest.symbol req
                          = ContractData.symbol contract
                       /\ OrderRequest.exchange req
                          = ContractData.exchange contract) reqs).
Proof.
  intros Ht Hc. simpl. split; [|split].
  - destruct (intent_outcome i vt_symbol volume gateway_name self)
      as [(msg & _ & _ & Hg) | (tick' & contract' & reqs & Ht' & Hc' & _
                                 & Hlegs & Hrun)].
    + exists []. split; [|constructor].
      unfold received. rewrite Hg, app_nil_r. reflexivity.
    + rewrite Ht in Ht'. injection Ht' as <-.
      rewrite Hc in Hc'. injection Hc' as <-.
      rewrite Hrun.
      destruct (gateways self !! gateway_name) as [gateway|] eqn:Hg.
      * exists reqs. split.
        -- rewrite (send_reqs_registered _ _ _ _ _ Hg). simpl.
           rewrite received_after_send. unfold received. rewrite Hg.
           reflexivity.
        -- eapply Forall_impl; [exact Hlegs|].
           intros req (v & o & ->). apply leg_price.
      * exists []. split; [|constructor].
        rewrite (send_reqs_unregistered _ _ _ _ Hg), app_nil_r. reflexivity.
  - intros gateway Ho Hg.
    rewrite (intent_open _ _ _ _ _ _ _ Ht Hc Ho).
    pose proof (send_reqs_submitted [leg i tick contract volume OPEN] _ _ _ Hg)
      as H.
    unfold leg in H. destruct i; try discriminate Ho; exact H.
  - intros gateway position Ho Hp Hle Hg.
    destruct (intent_checks_pass i vt_symbol volume gateway_name tick contract
                self Ht Hc) as (reqs & Hne & Hlegs & Hrun).
    { right. exists position. auto. }
    exists reqs. split; [exact Hne|].
    rewrite Hrun, (send_reqs_registered _ _ _ _ _ Hg). simpl.
    split; [apply length_replies|]. split; [apply received_after_send|].
    eapply Forall_impl; [exact Hlegs|].
    intros req (v & o & ->). split; [apply leg_price|]. repeat split.
Qed.

Lemma taker_limit_price_witness :
  let self := example_engine DCE 10 1 4 in
  let r := intent Buy "X.DCE" 5 "G1" self in
  ticks self !! "X.DCE" = Some (TickData.mk "G1" "X" DCE 99 101)
  /\ contracts self !! "X.DCE" = Some (ContractData.mk "G1" "X" DCE 1)
  /\ received "G1" self = []
  /\ received "G1" r.2 = [OrderRequest.mk "X" DCE LONG LIMIT 5 103 OPEN]
  /\ r.1 = ["G1.1"]
  /\ (exists req,
        received "G1" (intent Sell "X.DCE" 5 "G1" self).2 = [req]
        /\ OrderRequest.price req = 97%float)
  /\ received "G1" (intent Buy "Y.DCE" 1 "G1" example_engine_small_tick).2
     = [OrderRequest.mk "Y" DCE LONG LIMIT 1 0x1.3333333333334p-2 OPEN].
Proof.
  pose proof (taker_limit_price Buy "X.DCE" 5 "G1" (example_tick DCE)
                (example_contract DCE) (example_engine DCE 10 1 4)
                eq_refl eq_refl) as (_ & Hopen & _).
  pose proof (taker_limit_price Sell "X.DCE" 5 "G1" (example_tick DCE)
                (example_contract DCE) (example_engine DCE 10 1 4)
                eq_refl eq_refl) as (_ & _ & Hclose).
  pose proof (taker_limit_price Buy "Y.DCE" 1 "G1"
                (TickData.mk "G1" "Y" DCE 0x1.999999999999ap-4
                   0x1.999999999999ap-4)
                (ContractData.mk "G1" "Y" DCE 0x1.999999999999ap-4)
                example_engine_small_tick eq_refl eq_refl)
    as (_ & Hsmall & _).
  destruct (Hopen G1 eq_refl eq_refl) as (_ & Hreceived & _).
  destruct (Hsmall G1 eq_refl eq_refl) as (_ & Hreceived_small & _).
  destruct (Hclose G1 (example_position DCE 10 1 4) eq_refl eq_refl
              ltac:(vm_compute; discriminate) eq_refl)
    as (reqs & _ & Hlen & Hreceived_close & Hall).
  split; [reflexivity|]. split; [reflexivity|]. split; [reflexivity|].
  split; [exact Hreceived|]. split; [reflexivity|].
  split; [|exact Hreceived_small].
  destruct reqs as [|req [|req' reqs]]; try discriminate Hlen.
  exists req. split; [exact Hreceived_close|].
  apply Forall_cons in Hall as [(Hprice & _) _]. exact Hprice.
Defined.

(** C1 (as amended): a close intent on SHFE or INE whose opposing position
    has 0 < yesterday's volume < total volume and passes the availability
    check submits exactly two order requests whose volumes sum to the
    requested volume: a close-yesterday leg of volume yesterday's volume
    minus frozen and a close-today leg of the requested volume minus that
    amount.  The close-yesterday leg is built first, but the close-today
    leg is appended first: the close-today leg is submitted first and the
    close-yesterday leg second. *)
Theorem mixed_close_today_first (i : Intent) (vt_symbol : string)
    (volume : Z) (gateway_name : string) (tick : TickData.t)
    (contract : ContractData.t) (position : PositionData.t)
    (gateway : Gateway.t) (self : MainEngine) :
  ticks self !! vt_symbol = Some tick ->
  contracts self !! vt_symbol = Some contract ->
  intent_offset i = CLOSE ->
  positions self !! opposing_positionid i gateway_name contract
    = Some position ->
  gateways self !! gateway_name = Some gateway ->
  ContractData.exchange contract ∈ [SHFE; INE] ->
  0 < PositionData.yd_volume position < PositionData.volume position ->
  volume <= PositionData.volume position - PositionData.frozen position ->
  let volume_yd :=
    PositionData.yd_volume position - PositionData.frozen position in
  let volume_td := volume - volume_yd in
  submitted
    [leg i tick contract volume_td CLOSETODAY;
     leg i tick contract volume_yd CLOSEYESTERDAY]
    gateway_name gateway self (intent i vt_symbol volume gateway_name self)
  /\ volume_yd + volume_td = volume.
Proof.
  intros Ht Hc Ho Hp Hg Hex Hyd Hle. simpl. split; [|lia].
  rewrite (intent_close_mixed _ _ _ _ _ _ _ _ Ht Hc Ho Hp Hle).
  - apply send_reqs_submitted, Hg.
  - apply bool_decide_eq_true, Hex.
  - lia.
  - lia.
Qed.

Lemma mixed_close_today_first_witness :
  let self := example_engine SHFE 10 1 4 in
  received "G1" (intent Sell "X.SHFE" 5 "G1" self).2
  = [OrderRequest.mk "X" SHFE SHORT LIMIT 2 97 CLOSETODAY;
     OrderRequest.mk "X" SHFE SHORT LIMIT 3 97 CLOSEYESTERDAY].
Proof.
  pose proof (mixed_close_today_first Sell "X.SHFE" 5 "G1"
                (example_tick SHFE) (example_contract SHFE)
                (example_position SHFE 10 1 4) G1 (example_engine SHFE 10 1 4)
                eq_refl eq_refl eq_refl eq_refl eq_refl
                (list_elem_of_here _ _) (conj eq_refl eq_refl)
                ltac:(vm_compute; discriminate)) as [(_ & H & _) _].
  exact H.
Defined.

(** C1, as specified, fails: selling 5 of a long SHFE position of 10 with
    4 from yesterday and 1 frozen submits the close-today leg (volume 2)
    first and the close-yesterday leg (volume 3) second. *)
Lemma mixed_close_yesterday_first_fails :
  ~ mixed_close_yesterday_first Sell "X.SHFE" 5 "G1" (example_tick SHFE)
      (example_contract SHFE) (example_position SHFE 10 1 4) G1
      (example_engine SHFE 10 1 4).
Proof.
  intros H.
  destruct H as [(_ & H & _) _]; try reflexivity.
  - apply list_elem_of_here.
  - split; reflexivity.
  - vm_compute. discriminate.
  - vm_compute in H. discriminate H.
Qed.

(** C5: a close intent on SHFE or INE that passes the position and
    availability checks submits exactly one request with the full requested
    volume: close-today when yesterday's volume of the opposing position is
    0, close-yesterday when its total volume equals yesterday's volume.  The
    two cases are those of the router's ordered list, the second being
    reached when the first does not apply (yesterday's volume is not 0); it
    is reached by every close of a positive volume against a frozen volume
    that is not negative, since the position is then not empty. *)
Theorem aging_close_single_leg (i : Intent) (vt_symbol : string)
    (volume : Z) (gateway_name : string) (tick : TickData.t)
    (contract : ContractData.t) (position : PositionData.t)
    (gateway : Gateway.t) (self : MainEngine) :
  ticks self !! vt_symbol = Some tick ->
  contracts self !! vt_symbol = Some contract ->
  intent_offset i = CLOSE ->
  positions self !! opposing_positionid i gateway_name contract
    = Some position ->
  gateways self !! gateway_name = Some gateway ->
  ContractData.exchange contract ∈ [SHFE; INE] ->
  volume <= PositionData.volume position - PositionData.frozen position ->
  (PositionData.yd_volume position = 0 ->
   submitted [leg i tick contract volume CLOSETODAY] gateway_name gateway
     self (intent i vt_symbol volume gateway_name self))
  /\ (PositionData.yd_volume position <> 0 ->
      PositionData.volume position = PositionData.yd_volume position ->
      submitted [leg i tick contract volume CLOSEYESTERDAY] gateway_name
        gateway self (intent i vt_symbol volume gateway_name self))
  /\ (0 < volume -> 0 <= PositionData.frozen position ->
      PositionData.volume position = PositionData.yd_volume position ->
      submitted [leg i tick contract volume CLOSEYESTERDAY] gateway_name
        gateway self (intent i vt_symbol volume gateway_name self)).
Proof.
  intros Ht Hc Ho Hp Hg Hex Hle.
  apply (bool_decide_eq_true_2 _) in Hex.
  assert (Hyesterday :
            PositionData.yd_volume position <> 0 ->
            PositionData.volume position = PositionData.yd_volume position ->
            submitted [leg i tick contract volume CLOSEYESTERDAY]
              gateway_name gateway self
              (intent i vt_symbol volume gateway_name self)).
  { intros Hyd He.
    rewrite (intent_close_yesterday _ _ _ _ _ _ _ _ Ht Hc Ho Hp Hle Hex Hyd
               He).
    apply send_reqs_submitted, Hg. }
  split; [|split].
  - intros Hyd.
    rewrite (intent_close_today _ _ _ _ _ _ _ _ Ht Hc Ho Hp Hle Hex Hyd).
    apply send_reqs_submitted, Hg.
  - exact Hyesterday.
  - intros Hpos Hfrozen He. apply Hyesterday; [lia|exact He].
Qed.

Lemma aging_close_single_leg_witness :
  received "G1"
    (intent Sell "X.SHFE" 5 "G1" (example_engine SHFE 10 1 0)).2
  = [OrderRequest.mk "X" SHFE SHORT LIMIT 5 97 CLOSETODAY]
  /\ received "G1"
       (intent Sell "X.INE" 5 "G1" (example_engine INE 10 1 10)).2
     = [OrderRequest.mk "X" INE SHORT LIMIT 5 97 CLOSEYESTERDAY].
Proof.
  split.
  - pose proof (aging_close_single_leg Sell "X.SHFE" 5 "G1"
                  (example_tick SHFE) (example_contract SHFE)
                  (example_position SHFE 10 1 0) G1
                  (example_engine SHFE 10 1 0)
                  eq_refl eq_refl eq_refl eq_refl eq_refl
                  (list_elem_of_here _ _)
                  ltac:(vm_compute; discriminate)) as [H _].
    destruct (H eq_refl) as (_ & Hreceived & _). exact Hreceived.
  - pose proof (aging_close_single_leg Sell "X.INE" 5 "G1"
                  (example_tick INE) (example_contract INE)
                  (example_position INE 10 1 10) G1
                  (example_engine INE 10 1 10)
                  eq_refl eq_refl eq_refl eq_refl eq_refl
                  (list_elem_of_further _ _ _ (list_elem_of_here _ _))
                  ltac:(vm_compute; discriminate)) as (_ & _ & H).
    destruct (H eq_refl ltac:(vm_compute; discriminate) eq_refl)
      as (_ & Hreceived & _).
    exact Hreceived.
Defined.

(** C10: in a mixed-aging close (SHFE or INE, 0 < yesterday's volume < total
    volume) that passes the availability check, the close-yesterday leg has
    volume yesterday's volume minus frozen, whatever the requested volume,
    and the close-today leg has the requested volume minus that amount; both
    are submitted, so that whenever yesterday's volume minus frozen exceeds
    the requested volume the close-today leg carries a negative volume. *)
Theorem mixed_close_today_leg_negative (i : Intent) (vt_symbol : string)
    (volume : Z) (gateway_name : string) (tick : TickData.t)
    (contract : ContractData.t) (position : PositionData.t)
    (gateway : Gateway.t) (self : MainEngine) :
  ticks self !! vt_symbol = Some tick ->
  contracts self !! vt_symbol = Some contract ->
  intent_offset i = CLOSE ->
  positions self !! opposing_positionid i gateway_name contract
    = Some position ->
  gateways self !! gateway_name = Some gateway ->
  ContractData.exchange contract ∈ [SHFE; INE] ->
  0 < PositionData.yd_volume position < PositionData.volume position ->
  volume <= PositionData.volume position - PositionData.frozen position ->
  exists req_td req_yd,
    received gateway_name (intent i vt_symbol volume gateway_name self).2
    = Gateway.sent_orders gateway ++ [req_td; req_yd]
    /\ OrderRequest.offset req_yd = CLOSEYESTERDAY
    /\ OrderRequest.volume req_yd
       = PositionData.yd_volume position - PositionData.frozen position
    /\ OrderRequest.offset req_td = CLOSETODAY
    /\ OrderRequest.volume req_td
       = volume
         - (PositionData.yd_volume position - PositionData.frozen position)
    /\ (volume
        < PositionData.yd_volume position - PositionData.frozen position ->
        OrderRequest.volume req_td < 0).
Proof.
  intros Ht Hc Ho Hp Hg Hex Hyd Hle.
  apply (bool_decide_eq_true_2 _) in Hex.
  rewrite (intent_close_mixed _ _ _ _ _ _ _ _ Ht Hc Ho Hp Hle Hex)
    by lia.
  rewrite (send_reqs_registered _ _ _ _ _ Hg). simpl.
  rewrite received_after_send.
  eexists _, _. split; [reflexivity|]. simpl.
  repeat split. lia.
Qed.

Lemma mixed_close_today_leg_negative_witness :
  exists req_td req_yd,
    received "G1"
      (intent Sell "X.SHFE" 3 "G1" (example_engine SHFE 10 0 8)).2
    = [req_td; req_yd]
    /\ OrderRequest.volume req_yd = 8
    /\ OrderRequest.volume req_td = -5.
Proof.
  destruct (mixed_close_today_leg_negative Sell "X.SHFE" 3 "G1"
              (example_tick SHFE) (example_contract SHFE)
              (example_position SHFE 10 0 8) G1 (example_engine SHFE 10 0 8)
              eq_refl eq_refl eq_refl eq_refl eq_refl
              (list_elem_of_here _ _) (conj eq_refl eq_refl)
              ltac:(vm_compute; discriminate))
    as (req_td & req_yd & Hreceived & _ & Hyd & _ & Htd & _).
  exists req_td, req_yd. split; [exact Hreceived|]. split; [exact Hyd|].
  exact Htd.
Defined.

(** C2, as specified, fails: buying through the unregistered gateway name
    "G2", with quote and contract cached, returns the empty identifier and
    logs nothing. *)
Lemma every_failure_logged_fails :
  ~ every_failure_logged Buy "X.DCE" 5 "G2" (example_engine DCE 0 0 0).
Proof.
  intros H. destruct H as (events & Hne & Hq).
  - apply list_elem_of_here.
  - vm_compute in Hq. apply Hne. injection Hq as <-. reflexivity.
Qed.

(** * Cancellation *)

(** C8: [cancel_active_order] on an order id found in the active orders
    builds the cancel request from that order's own order id, symbol and
    exchange and hands it to the gateway registered under the order's
    gateway name, which receives exactly this one more cancel request; on an
    order id that is not among the active orders it calls no gateway, logs
    nothing and leaves the engine as it was. *)
Theorem cancel_active_order_spec (vt_orderid : string) (self : MainEngine) :
  (forall order gateway,
     active_orders self !! vt_orderid = Some order ->
     gateways self !! OrderData.gateway_name order = Some gateway ->
     exists gateway',
       gateways (cancel_active_order vt_orderid self).2
       = <[OrderData.gateway_name order := gateway']> (gateways self)
       /\ Gateway.sent_cancels gateway'
          = Gateway.sent_cancels gateway
              ++ [CancelRequest.mk (OrderData.orderid order)
                    (OrderData.symbol order) (OrderData.exchange order)]
       /\ Gateway.sent_orders gateway' = Gateway.sent_orders gateway)
  /\ (active_orders self !! vt_orderid = None ->
      cancel_active_order vt_orderid self = (tt, self)).
Proof.
  split.
  - intros order gateway Ha Hg.
    unfold cancel_active_order, bind, get_active_order, read, get_df.
    rewrite Ha. unfold _cancel_order, bind, get_gateway, read.
    rewrite Hg. simpl. eexists. split; [reflexivity|]. split; reflexivity.
  - intros Ha.
    unfold cancel_active_order, bind, get_active_order, read, get_df.
    rewrite Ha. reflexivity.
Qed.

Lemma cancel_active_order_spec_witness :
  let self :=
    (process_event (EVENT_ORDER (example_order "7" NOTTRADED))
       (example_engine SHFE 10 1 4)).2 in
  active_orders self !! "G1.7" = Some (example_order "7" NOTTRADED)
  /\ (exists gateway',
        gateways (cancel_active_order "G1.7" self).2 !! "G1" = Some gateway'
        /\ Gateway.sent_cancels gateway' = [CancelRequest.mk "7" "X" SHFE])
  /\ active_orders self !! "G1.8" = None
  /\ cancel_active_order "G1.8" self = (tt, self).
Proof.
  pose proof (cancel_active_order_spec "G1.7"
                (process_event (EVENT_ORDER (example_order "7" NOTTRADED))
                   (example_engine SHFE 10 1 4)).2) as [Hpresent _].
  pose proof (cancel_active_order_spec "G1.8"
                (process_event (EVENT_ORDER (example_order "7" NOTTRADED))
                   (example_engine SHFE 10 1 4)).2) as [_ Habsent].
  destruct (Hpresent (example_order "7" NOTTRADED) G1 eq_refl eq_refl)
    as (gateway' & Hgs & Hcancels & _).
  split; [reflexivity|]. split; [|split; [reflexivity|]].
  - exists gateway'. split; [|exact Hcancels].
    rewrite Hgs. apply lookup_insert_eq.
  - exact (Habsent eq_refl).
Defined.

(** * The active orders *)

(** The two caches after one order event, key by key. *)
Lemma process_order_event_orders order self vt_orderid :
  orders (_process_order_event order self).2 !! vt_orderid
  = if decide (OrderData.vt_orderid order = vt_orderid)
    then Some order else orders self !! vt_orderid.
Proof.
  unfold _process_order_event, bind, modify, read, ret.
  assert (Hins : <[OrderData.vt_orderid order := order]> (orders self)
                   !! vt_orderid
                 = if decide (OrderData.vt_orderid order = vt_orderid)
                   then Some order else orders self !! vt_orderid).
  { destruct (decide (OrderData.vt_orderid order = vt_orderid)) as [->|Hne].
    - apply lookup_insert_eq.
    - apply lookup_insert_ne, Hne. }
  destruct (OrderData.is_active order); simpl; [exact Hins|].
  destruct (bool_decide _); simpl; exact Hins.
Qed.

Lemma process_order_event_active order self vt_orderid :
  active_orders (_process_order_event order self).2 !! vt_orderid
  = if decide (OrderData.vt_orderid order = vt_orderid)
    then (if OrderData.is_active order then Some order else None)
    else active_orders self !! vt_orderid.
Proof.
  unfold _process_order_event, bind, modify, read, ret.
  destruct (OrderData.is_active order) eqn:Hact; simpl.
  - destruct (decide (OrderData.vt_orderid order = vt_orderid)) as [->|Hne].
    + apply lookup_insert_eq.
    + apply lookup_insert_ne, Hne.
  - destruct (bool_decide _) eqn:Hin; simpl.
    + destruct (decide (OrderData.vt_orderid order = vt_orderid)) as [->|Hne].
      * apply lookup_delete_eq.
      * apply lookup_delete_ne, Hne.
    + apply bool_decide_eq_false in Hin.
      destruct (decide (OrderData.vt_orderid order = vt_orderid)) as [<-|Hne];
        [|reflexivity].
      destruct (active_orders self !! OrderData.vt_orderid order) eqn:E;
        [|reflexivity].
      exfalso. apply Hin. eauto.
Qed.

(** The other handlers leave the orders and the active orders alone. *)
Lemma process_event_other event self :
  (forall order, event <> EVENT_ORDER order) ->
  orders (process_event event self).2 = orders self
  /\ active_orders (process_event event self).2 = active_orders self.
Proof.
  intros Hne. destruct event as [| order | | | | contract |]; simpl;
    try (split; reflexivity).
  - destruct (Hne order eq_refl).
  - unfold _process_contract_event, bind, get_contract, read, get_df.
    destruct (contracts self !! ContractData.vt_symbol contract);
      split; reflexivity.
Qed.

Lemma process_event_orders event self vt_orderid :
  orders (process_event event self).2 !! vt_orderid
  = latest_order vt_orderid [event] (orders self !! vt_orderid).
Proof.
  destruct event as [tick | order | trade | account | position | contract
                     | l]; try reflexivity.
  - apply process_order_event_orders.
  - rewrite (proj1 (process_event_other (EVENT_CONTRACT contract) self
                      ltac:(discriminate))).
    reflexivity.
Qed.

Lemma process_event_consistent event self :
  active_orders_match self ->
  active_orders_match (process_event event self).2.
Proof.
  intros Hinv id.
  destruct event as [tick | order | trade | account | position | contract
                     | l];
    try (match goal with
         | |- context [process_event ?e self] =>
             destruct (process_event_other e self) as [Ho Ha];
             [intros ?; discriminate|]; rewrite Ho, Ha; apply Hinv
         end).
  change (process_event (EVENT_ORDER order) self)
    with (_process_order_event order self).
  rewrite process_order_event_active, process_order_event_orders.
  destruct (decide (OrderData.vt_orderid order = id)); [reflexivity|].
  apply Hinv.
Qed.

Lemma process_events_cons event events self :
  process_events (event :: events) self
  = process_events events (process_event event self).2.
Proof.
  simpl. unfold bind. destruct (process_event event self). reflexivity.
Qed.

Lemma process_events_orders events : forall self vt_orderid,
  orders (process_events events self).2 !! vt_orderid
  = latest_order vt_orderid events (orders self !! vt_orderid).
Proof.
  induction events as [|event events IH]; intros self vt_orderid;
    [reflexivity|].
  rewrite process_events_cons, IH, process_event_orders.
  destruct event; reflexivity.
Qed.

Lemma process_events_consistent events : forall self,
  active_orders_match self ->
  active_orders_match (process_events events self).2.
Proof.
  induction events as [|event events IH]; intros self Hinv; [exact Hinv|].
  rewrite process_events_cons.
  apply IH, process_event_consistent, Hinv.
Qed.

Lemma init_consistent gws : active_orders_match (init gws).
Proof. intros id. simpl. rewrite !lookup_empty. reflexivity. Qed.

(** C9: after the dispatch of any sequence of events to a freshly
    initialised engine, an order id is among the active orders if and only
    if the order event processed last for that id is active, that is, has a
    status other than ALLTRADED (filled), CANCELLED and REJECTED; the active
    orders then hold that latest order. *)
Theorem active_orders_consistent (gws : gmap string Gateway.t)
    (events : list Event) (vt_orderid : string) :
  let self := (process_events events (init gws)).2 in
  (is_Some (active_orders self !! vt_orderid)
   <-> exists order,
         latest_order vt_orderid events None = Some order
         /\ OrderData.status order ∉ [ALLTRADED; CANCELLED; REJECTED])
  /\ orders self !! vt_orderid = latest_order vt_orderid events None
  /\ (forall order,
        active_orders self !! vt_orderid = Some order ->
        latest_order vt_orderid events None = Some order).
Proof.
  simpl.
  pose proof (process_events_orders events (init gws) vt_orderid) as Ho.
  simpl in Ho. rewrite lookup_empty in Ho.
  pose proof (process_events_consistent events (init gws)
                (init_consistent gws) vt_orderid) as Hact.
  rewrite Ho in Hact. split; [|split; [exact Ho|]].
  - rewrite Hact. destruct (latest_order vt_orderid events None) as [order|].
    + destruct (OrderData.is_active order) eqn:E.
      * split; [|eauto]. intros _. exists order. split; [reflexivity|].
        apply is_active_spec, E.
      * split; [intros [? ?]; discriminate|].
        intros (order' & Heq & Hst). injection Heq as <-.
        apply is_active_spec in Hst. congruence.
    + split; [intros [? ?]; discriminate|]. intros (? & ? & _). discriminate.
  - intros order. rewrite Hact.
    destruct (latest_order vt_orderid events None) as [order'|];
      [|discriminate].
    destruct (OrderData.is_active order'); [|discriminate].
    intros H. exact H.
Qed.

Lemma active_orders_consistent_witness :
  let self :=
    (process_events
       [EVENT_ORDER (example_order "7" NOTTRADED);
        EVENT_ORDER (example_order "8" SUBMITTING);
        EVENT_ORDER (example_order "7" ALLTRADED)]
       (init {["G1" := G1]})).2 in
  is_Some (active_orders self !! "G1.8")
  /\ orders self !! "G1.7" = Some (example_order "7" ALLTRADED)
  /\ ~ is_Some (active_orders self !! "G1.7").
Proof.
  pose proof (active_orders_consistent {["G1" := G1]}
                [EVENT_ORDER (example_order "7" NOTTRADED);
                 EVENT_ORDER (example_order "8" SUBMITTING);
                 EVENT_ORDER (example_order "7" ALLTRADED)]) as H.
  split; [|split].
  - apply (proj1 (H "G1.8")). exists (example_order "8" SUBMITTING).
    split; [reflexivity|]. intros Hin.
    apply elem_of_cons in Hin as [Hin|Hin]; [discriminate|].
    apply elem_of_cons in Hin as [Hin|Hin]; [discriminate|].
    apply elem_of_cons in Hin as [Hin|Hin]; [discriminate|].
    apply elem_of_nil in Hin. exact Hin.
  - apply (proj1 (proj2 (H "G1.7"))).
  - intros Hin. apply (proj1 (H "G1.7")) in Hin as (order & Hlatest & Hst).
    injection Hlatest as <-. apply Hst, list_elem_of_here.
Defined.

(** * Calls leave the caches to the event handlers *)

Lemma same_caches_refl a : same_caches a a.
Proof. repeat split. Qed.

Lemma same_caches_trans a b c :
  same_caches a b -> same_caches b c -> same_caches a c.
Proof.
  unfold same_caches. intros (?&?&?&?&?&?&?) (?&?&?&?&?&?&?).
  repeat split; congruence.
Qed.

Lemma _send_order_same_caches req gateway_name self :
  same_caches self (_send_order req gateway_name self).2.
Proof.
  unfold _send_order, bind, get_gateway, read.
  destruct (gateways self !! gateway_name); repeat split.
Qed.

Lemma send_reqs_same_caches reqs : forall gateway_name vt_orderids self,
  same_caches self (send_reqs reqs gateway_name vt_orderids self).2.
Proof.
  induction reqs as [|req reqs IH]; intros gateway_name ids self.
  - apply same_caches_refl.
  - simpl. unfold bind.
    pose proof (_send_order_same_caches req gateway_name self) as H.
    destruct (_send_order req gateway_name self) as [id self1].
    eapply same_caches_trans; [exact H|apply IH].
Qed.

Lemma intent_same_caches i vt_symbol volume gateway_name self :
  same_caches self (intent i vt_symbol volume gateway_name self).2.
Proof.
  unfold_router.
  destruct (ticks self !! vt_symbol) as [tick|];
    [destruct (contracts self !! vt_symbol) as [contract|]|];
    try (repeat split; fail).
  destruct (decide (intent_offset i = CLOSE));
    [|apply send_reqs_same_caches].
  destruct (decide (intent_direction i = LONG));
    (destruct (positions self !! _) as [position|];
       [|repeat split]);
    (destruct (_ <? _); [repeat split|]);
    (destruct (aging_exchange _); [|apply send_reqs_same_caches]);
    (destruct (_ =? 0); [apply send_reqs_same_caches|]);
    (destruct (_ =? _); apply send_reqs_same_caches).
Qed.

Lemma cancel_active_order_same_caches vt_orderid self :
  same_caches self (cancel_active_order vt_orderid self).2.
Proof.
  unfold cancel_active_order, bind, get_active_order, read, get_df.
  destruct (active_orders self !! vt_orderid) as [order|]; [|repeat split].
  unfold _cancel_order, bind, get_gateway, read.
  destruct (gateways self !! OrderData.gateway_name order); repeat split.
Qed.

Lemma calls_cons c cs self :
  calls (c :: cs) self = calls cs (call c self).2.
Proof. simpl. unfold bind. destruct (call c self). reflexivity. Qed.

Lemma call_dispatch event self :
  (call (Dispatch event) self).2 = (process_event event self).2.
Proof. reflexivity. Qed.

Lemma call_trade i vt_symbol volume gateway_name self :
  (call (Trade i vt_symbol volume gateway_name) self).2
  = (intent i vt_symbol volume gateway_name self).2.
Proof.
  simpl. unfold bind.
  destruct (intent i vt_symbol volume gateway_name self). reflexivity.
Qed.

(** The handlers read nothing but the caches. *)
Lemma process_event_same_caches event a b :
  same_caches a b ->
  same_caches (process_event event a).2 (process_event event b).2.
Proof.
  intros (Ht & Ho & Htr & Hac & Hc & Hp & Ha).
  destruct event as [tick | order | trade | account | position | contract
                     | l]; simpl;
    try (repeat split; simpl; congruence).
  - unfold _process_order_event, bind, modify, read, ret.
    destruct (OrderData.is_active order); simpl;
      [repeat split; simpl; congruence|].
    rewrite Ha. destruct (bool_decide _); repeat split; simpl; congruence.
  - unfold _process_contract_event, bind, get_contract, read, get_df, modify.
    rewrite Hc. destruct (contracts b !! _); repeat split; simpl; congruence.
Qed.

Lemma process_events_same_caches events : forall a b,
  same_caches a b ->
  same_caches (process_events events a).2 (process_events events b).2.
Proof.
  induction events as [|event events IH]; intros a b H; [exact H|].
  rewrite !process_events_cons. apply IH, process_event_same_caches, H.
Qed.

Lemma same_caches_sym a b : same_caches a b -> same_caches b a.
Proof.
  unfold same_caches. intros (?&?&?&?&?&?&?). repeat split; congruence.
Qed.

(** The caches after [cs] are those after the events among [cs]. *)
Lemma calls_same_caches cs : forall self,
  same_caches (calls cs self).2 (process_events (dispatched cs) self).2.
Proof.
  induction cs as [|c cs IH]; intros self; [apply same_caches_refl|].
  rewrite calls_cons.
  destruct c as [event | i vt_symbol volume gateway_name | vt_orderid].
  - change (dispatched (Dispatch event :: cs))
      with (event :: dispatched cs).
    rewrite process_events_cons, call_dispatch. apply IH.
  - change (dispatched (Trade i vt_symbol volume gateway_name :: cs))
      with (dispatched cs).
    eapply same_caches_trans; [apply IH|].
    apply process_events_same_caches, same_caches_sym.
    rewrite call_trade. apply intent_same_caches.
  - change (dispatched (Cancel vt_orderid :: cs)) with (dispatched cs).
    eapply same_caches_trans; [apply IH|].
    apply process_events_same_caches, same_caches_sym.
    apply cancel_active_order_same_caches.
Qed.

(** One event, cache by cache. *)
Lemma insert_lookup_latest {A} (m : gmap string A) k a key :
  <[k := a]> m !! key = if decide (k = key) then Some a else m !! key.
Proof.
  destruct (decide (k = key)) as [->|Hne];
    [apply lookup_insert_eq | apply lookup_insert_ne, Hne].
Qed.

Lemma process_event_ticks event self key :
  ticks (process_event event self).2 !! key
  = latest tick_of key [event] (ticks self !! key).
Proof.
  destruct event as [tick | order | trade | account | position | contract
                     | l]; try reflexivity.
  - apply insert_lookup_latest.
  - simpl. unfold _process_order_event, bind, modify, read, ret.
    destruct (OrderData.is_active order); simpl; [reflexivity|].
    destruct (bool_decide _); reflexivity.
  - simpl. unfold _process_contract_event, bind, get_contract, read, get_df.
    destruct (contracts self !! _); reflexivity.
Qed.

Lemma process_event_positions event self key :
  positions (process_event event self).2 !! key
  = latest position_of key [event] (positions self !! key).
Proof.
  destruct event as [tick | order | trade | account | position | contract
                     | l]; try reflexivity.
  - simpl. unfold _process_order_event, bind, modify, read, ret.
    destruct (OrderData.is_active order); simpl; [reflexivity|].
    destruct (bool_decide _); reflexivity.
  - apply insert_lookup_latest.
  - simpl. unfold _process_contract_event, bind, get_contract, read, get_df.
    destruct (contracts self !! _); reflexivity.
Qed.

Lemma process_event_accounts event self key :
  accounts (process_event event self).2 !! key
  = latest account_of key [event] (accounts self !! key).
Proof.
  destruct event as [tick | order | trade | account | position | contract
                     | l]; try reflexivity.
  - simpl. unfold _process_order_event, bind, modify, read, ret.
    destruct (OrderData.is_active order); simpl; [reflexivity|].
    destruct (bool_decide _); reflexivity.
  - apply insert_lookup_latest.
  - simpl. unfold _process_contract_event, bind, get_contract, read, get_df.
    destruct (contracts self !! _); reflexivity.
Qed.

Lemma process_event_trades event self key :
  trades (process_event event self).2 !! key
  = latest trade_of key [event] (trades self !! key).
Proof.
  destruct event as [tick | order | trade | account | position | contract
                     | l]; try reflexivity.
  - simpl. unfold _process_order_event, bind, modify, read, ret.
    destruct (OrderData.is_active order); simpl; [reflexivity|].
    destruct (bool_decide _); reflexivity.
  - apply insert_lookup_latest.
  - simpl. unfold _process_contract_event, bind, get_contract, read, get_df.
    destruct (contracts self !! _); reflexivity.
Qed.

Lemma process_event_contracts event self key :
  contracts (process_event event self).2 !! key
  = match contracts self !! key with
    | Some contract => Some contract
    | None => first_contract key [event]
    end.
Proof.
  destruct event as [tick | order | trade | account | position | contract
                     | l]; simpl;
    try (destruct (contracts self !! key); reflexivity).
  - unfold _process_order_event, bind, modify, read, ret.
    destruct (OrderData.is_active order); simpl;
      [destruct (contracts self !! key); reflexivity|].
    destruct (bool_decide _); simpl; destruct (contracts self !! key);
      reflexivity.
  - unfold _process_contract_event, bind, get_contract, read, get_df, modify.
    destruct (contracts self !! ContractData.vt_symbol contract) as [c|]
      eqn:Hc; simpl.
    + destruct (contracts self !! key) eqn:Hk; [reflexivity|].
      destruct (decide (ContractData.vt_symbol contract = key)) as [<-|];
        [congruence|reflexivity].
    + rewrite insert_lookup_latest.
      destruct (decide (ContractData.vt_symbol contract = key)) as [<-|];
        [rewrite Hc; reflexivity|].
      destruct (contracts self !! key); reflexivity.
Qed.

Lemma latest_cons {A} (pick : Event -> option (string * A)) key event events
    cached :
  latest pick key (event :: events) cached
  = latest pick key events (latest pick key [event] cached).
Proof. reflexivity. Qed.

Lemma process_events_caches events : forall self key,
  let self' := (process_events events self).2 in
  ticks self' !! key = latest tick_of key events (ticks self !! key)
  /\ positions self' !! key
     = latest position_of key events (positions self !! key)
  /\ accounts self' !! key
     = latest account_of key events (accounts self !! key)
  /\ trades self' !! key = latest trade_of key events (trades self !! key)
  /\ contracts self' !! key
     = match contracts self !! key with
       | Some contract => Some contract
       | None => first_contract key events
       end.
Proof.
  induction events as [|event events IH]; intros self key.
  - simpl. repeat split. destruct (contracts self !! key); reflexivity.
  - cbv zeta. rewrite process_events_cons.
    destruct (IH (process_event event self).2 key) as (Ht & Hp & Ha & Htr & Hc).
    rewrite Ht, Hp, Ha, Htr, Hc.
    rewrite process_event_ticks, process_event_positions,
      process_event_accounts, process_event_trades, process_event_contracts.
    repeat split.
    destruct (contracts self !! key); [reflexivity|].
    destruct event as [| | | | | contract |]; simpl; try reflexivity.
    destruct (decide (ContractData.vt_symbol contract = key)); reflexivity.
Qed.

(** * Gateways and the event queue across calls *)

Lemma gateway_extends_refl g : gateway_extends g g.
Proof. repeat split; reflexivity. Qed.

Lemma gateway_extends_trans a b c :
  gateway_extends a b -> gateway_extends b c -> gateway_extends a c.
Proof.
  intros (Hr & Ho & Hc) (Hr' & Ho' & Hc'). split; [congruence|].
  split; etrans; eauto.
Qed.

Lemma registry_extends_refl a : registry_extends a a.
Proof.
  intros name. destruct (a !! name) as [g|] eqn:E; [|reflexivity].
  exists g. split; [reflexivity|apply gateway_extends_refl].
Qed.

Lemma registry_extends_trans a b c :
  registry_extends a b -> registry_extends b c -> registry_extends a c.
Proof.
  intros Hab Hbc name. specialize (Hab name). specialize (Hbc name).
  destruct (a !! name) as [g|].
  - destruct Hab as (g' & Hb & Hg). rewrite Hb in Hbc.
    destruct Hbc as (g'' & Hc & Hg'). exists g''. split; [exact Hc|].
    eapply gateway_extends_trans; eauto.
  - rewrite Hab in Hbc. exact Hbc.
Qed.

Lemma registry_extends_insert a name g g' :
  a !! name = Some g -> gateway_extends g g' ->
  registry_extends a (<[name := g']> a).
Proof.
  intros Ha Hg n. destruct (decide (name = n)) as [<-|Hne].
  - rewrite Ha, lookup_insert_eq. eauto.
  - rewrite lookup_insert_ne by exact Hne.
    destruct (a !! n) as [h|] eqn:E; [|reflexivity].
    exists h. split; [reflexivity|apply gateway_extends_refl].
Qed.

Lemma send_all_extends reqs : forall g, gateway_extends g (send_all g reqs).
Proof.
  induction reqs as [|req reqs IH]; intros g; [apply gateway_extends_refl|].
  simpl. eapply gateway_extends_trans; [|apply IH].
  repeat split; simpl; [apply prefix_app_r|]; reflexivity.
Qed.

Lemma send_reqs_registry reqs gateway_name vt_orderids self :
  registry_extends (gateways self)
    (gateways (send_reqs reqs gateway_name vt_orderids self).2).
Proof.
  destruct (gateways self !! gateway_name) as [g|] eqn:Hg.
  - rewrite (send_reqs_registered _ _ _ _ _ Hg). simpl.
    apply (registry_extends_insert _ _ g); [exact Hg|apply send_all_extends].
  - rewrite (send_reqs_unregistered _ _ _ _ Hg). apply registry_extends_refl.
Qed.

Lemma intent_registry i vt_symbol volume gateway_name self :
  registry_extends (gateways self)
    (gateways (intent i vt_symbol volume gateway_name self).2).
Proof.
  destruct (intent_outcome i vt_symbol volume gateway_name self)
    as [(msg & _ & _ & ->) | (tick & contract & reqs & _ & _ & _ & _ & ->)].
  - apply registry_extends_refl.
  - apply send_reqs_registry.
Qed.

Lemma cancel_active_order_registry vt_orderid self :
  registry_extends (gateways self)
    (gateways (cancel_active_order vt_orderid self).2).
Proof.
  unfold cancel_active_order, bind, get_active_order, read, get_df.
  destruct (active_orders self !! vt_orderid) as [order|];
    [|apply registry_extends_refl].
  unfold _cancel_order, bind, get_gateway, read.
  destruct (gateways self !! OrderData.gateway_name order) as [g|] eqn:Hg;
    simpl; [|apply registry_extends_refl].
  apply (registry_extends_insert _ _ g); [exact Hg|].
  repeat split; simpl; [reflexivity|apply prefix_app_r; reflexivity].
Qed.

Lemma process_event_gateways event self :
  gateways (process_event event self).2 = gateways self.
Proof.
  destruct event as [tick | order | trade | account | position | contract
                     | l]; try reflexivity; simpl.
  - unfold _process_order_event, bind, modify, read, ret.
    destruct (OrderData.is_active order); simpl; [reflexivity|].
    destruct (bool_decide _); reflexivity.
  - unfold _process_contract_event, bind, get_contract, read, get_df.
    destruct (contracts self !! _); reflexivity.
Qed.

Lemma process_event_queue event self :
  event_queue (process_event event self).2
  = event_queue self ++ trade_logs [event].
Proof.
  destruct event as [tick | order | trade | account | position | contract
                     | l]; simpl; rewrite ?app_nil_r; try reflexivity.
  - unfold _process_order_event, bind, modify, read, ret.
    destruct (OrderData.is_active order); simpl; [reflexivity|].
    destruct (bool_decide _); reflexivity.
  - unfold _process_contract_event, bind, get_contract, read, get_df.
    destruct (contracts self !! _); reflexivity.
Qed.

(** The legs of an intent whose checks pass depend on the caches only. *)
Lemma intent_checks_pass_stable i vt_symbol volume gateway_name tick contract
    self :
  ticks self !! vt_symbol = Some tick ->
  contracts self !! vt_symbol = Some contract ->
  (intent_offset i = OPEN
   \/ exists position,
        intent_offset i = CLOSE
        /\ positions self !! opposing_positionid i gateway_name contract
           = Some position
        /\ volume
           <= PositionData.volume position - PositionData.frozen position) ->
  exists reqs,
    reqs <> []
    /\ forall self',
         same_caches self self' ->
         intent i vt_symbol volume gateway_name self'
         = send_reqs reqs gateway_name [] self'.
Proof.
  intros Ht Hc [Ho | (position & Ho & Hp & Hle)].
  - eexists. split; cycle 1.
    + intros self' (Et & _ & _ & _ & Ec & _).
      rewrite Et in Ht. rewrite Ec in Hc.
      apply (intent_open _ _ _ _ _ _ _ Ht Hc Ho).
    + discriminate.
  - destruct (aging_exchange (ContractData.exchange contract)) eqn:Hag;
      [destruct (decide (PositionData.yd_volume position = 0)) as [Hyd|Hyd];
       [|destruct (decide (PositionData.volume position
                           = PositionData.yd_volume position)) as [He|He]]|];
      (eexists; split; cycle 1;
       [intros self' (Et & _ & _ & _ & Ec & Ep & _);
        rewrite Et in Ht; rewrite Ec in Hc; rewrite Ep in Hp|]).
    + apply (intent_close_today _ _ _ _ _ _ _ _ Ht Hc Ho Hp Hle Hag Hyd).
    + discriminate.
    + apply (intent_close_yesterday _ _ _ _ _ _ _ _ Ht Hc Ho Hp Hle Hag Hyd
               He).
    + discriminate.
    + apply (intent_close_mixed _ _ _ _ _ _ _ _ Ht Hc Ho Hp Hle Hag Hyd He).
    + discriminate.
    + apply (intent_close_plain _ _ _ _ _ _ _ _ Ht Hc Ho Hp Hle Hag).
    + discriminate.
Qed.

Lemma after_send_same_caches gateway_name gateway reqs self :
  same_caches self (after_send gateway_name gateway reqs self).
Proof. repeat split. Qed.

(** * What the calls keep *)

(** X1: the tick, position, account and trade caches are last-write-wins
    per key: after any sequence of events, trading intents and
    cancellations, each holds under a key the payload of the last event
    dispatched for that key, or what it held before when there was none;
    intents and cancellations in between change nothing. *)
Theorem caches_last_write_wins (cs : list Call) (self : MainEngine)
    (key : string) :
  let self' := (calls cs self).2 in
  ticks self' !! key = latest tick_of key (dispatched cs) (ticks self !! key)
  /\ positions self' !! key
     = latest position_of key (dispatched cs) (positions self !! key)
  /\ accounts self' !! key
     = latest account_of key (dispatched cs) (accounts self !! key)
  /\ trades self' !! key
     = latest trade_of key (dispatched cs) (trades self !! key).
Proof.
  cbv zeta.
  destruct (calls_same_caches cs self) as (Et & _ & Etr & Ea & _ & Ep & _).
  destruct (process_events_caches (dispatched cs) self key)
    as (Ht & Hp & Ha & Htr & _).
  rewrite Et, Ep, Ea, Etr. auto.
Qed.

(** X2: the contract cache is first-write-wins: after any sequence of
    calls, a symbol that had a contract cached still has that very
    contract, and a symbol that had none has the contract of the first
    contract event dispatched for it; later contract events for the symbol
    are ignored. *)
Theorem contract_first_write_wins (cs : list Call) (self : MainEngine)
    (vt_symbol : string) :
  contracts (calls cs self).2 !! vt_symbol
  = match contracts self !! vt_symbol with
    | Some contract => Some contract
    | None => first_contract vt_symbol (dispatched cs)
    end.
Proof.
  destruct (calls_same_caches cs self) as (_ & _ & _ & _ & Ec & _).
  rewrite Ec.
  apply (process_events_caches (dispatched cs) self vt_symbol).
Qed.

(** X3: that the active orders are exactly the cached orders that are
    active is an invariant of every call: if it holds before a sequence of
    events, trading intents and cancellations, it holds after it, and the
    cached order of an id is then the one of its last order event. *)
Theorem active_orders_match_invariant (cs : list Call) (self : MainEngine) :
  active_orders_match self ->
  active_orders_match (calls cs self).2
  /\ forall vt_orderid,
       orders (calls cs self).2 !! vt_orderid
       = latest order_of vt_orderid (dispatched cs)
           (orders self !! vt_orderid).
Proof.
  intros Hinv.
  destruct (calls_same_caches cs self) as (_ & Eo & _ & _ & _ & _ & Ea).
  split.
  - intros id. rewrite Ea, Eo.
    apply (process_events_consistent (dispatched cs) self Hinv).
  - intros id. rewrite Eo, process_events_orders.
    generalize (orders self !! id). generalize (dispatched cs).
    induction l as [|event l IH]; intros o; [reflexivity|].
    destruct event; simpl; apply IH.
Qed.

Lemma active_orders_match_invariant_witness :
  let cs :=
    [Dispatch (EVENT_ORDER (example_order "7" NOTTRADED));
     Cancel "G1.7";
     Trade Buy "X.SHFE" 5 "G1";
     Dispatch (EVENT_ORDER (example_order "7" CANCELLED))] in
  let self := example_engine SHFE 10 1 4 in
  active_orders_match self
  /\ active_orders (calls cs self).2 !! "G1.7" = None
  /\ orders (calls cs self).2 !! "G1.7"
     = Some (example_order "7" CANCELLED).
Proof.
  assert (Hinv : active_orders_match (example_engine SHFE 10 1 4)).
  { apply (process_events_consistent _ _ (init_consistent _)). }
  destruct (active_orders_match_invariant
              [Dispatch (EVENT_ORDER (example_order "7" NOTTRADED));
               Cancel "G1.7";
               Trade Buy "X.SHFE" 5 "G1";
               Dispatch (EVENT_ORDER (example_order "7" CANCELLED))]
              (example_engine SHFE 10 1 4) Hinv) as [Hmatch Horders].
  unfold active_orders_match in Hmatch.
  split; [exact Hinv|]. split.
  - rewrite (Hmatch "G1.7"), (Horders "G1.7"). reflexivity.
  - rewrite (Horders "G1.7"). reflexivity.
Defined.

(** X4: a trading intent and a cancellation only read the caches: ticks,
    orders, trades, accounts, contracts, positions and active orders are the
    same afterwards, whatever the outcome.  In particular a cancelled order
    stays among the active orders, and a close intent does not reduce the
    cached position. *)
Theorem intent_and_cancel_read_only (self : MainEngine) :
  (forall i vt_symbol volume gateway_name,
     same_caches self (intent i vt_symbol volume gateway_name self).2)
  /\ (forall vt_orderid,
        same_caches self (cancel_active_order vt_orderid self).2).
Proof.
  split.
  - intros. apply intent_same_caches.
  - intros. apply cancel_active_order_same_caches.
Qed.

Lemma process_events_gateways_queue events : forall self,
  gateways (process_events events self).2 = gateways self
  /\ event_queue (process_events events self).2
     = event_queue self ++ trade_logs events.
Proof.
  induction events as [|event events IH]; intros self.
  - simpl. rewrite app_nil_r. auto.
  - rewrite process_events_cons.
    destruct (IH (process_event event self).2) as [Hg Hq].
    rewrite Hg, Hq, process_event_gateways, process_event_queue.
    split; [reflexivity|]. rewrite <- app_assoc. f_equal.
    destruct event; reflexivity.
Qed.

(** X5: no call registers or unregisters a gateway, and no call rewrites
    what a gateway has received: after any sequence of events, trading
    intents and cancellations, a name that was unregistered still is, and a
    registered gateway keeps its reply function and has the order and cancel
    requests it had received as a prefix of those it has received now. *)
Theorem registry_only_grows (cs : list Call) (self : MainEngine)
    (name : string) :
  match gateways self !! name with
  | Some gateway =>
      exists gateway',
        gateways (calls cs self).2 !! name = Some gateway'
        /\ Gateway.send_order_reply gateway'
           = Gateway.send_order_reply gateway
        /\ Gateway.sent_orders gateway `prefix_of` Gateway.sent_orders gateway'
        /\ Gateway.sent_cancels gateway
             `prefix_of` Gateway.sent_cancels gateway'
  | None => gateways (calls cs self).2 !! name = None
  end.
Proof.
  assert (H : registry_extends (gateways self) (gateways (calls cs self).2)).
  { revert self. induction cs as [|c cs IH]; intros self;
      [apply registry_extends_refl|].
    rewrite calls_cons.
    eapply registry_extends_trans; [|apply IH].
    destruct c as [event|i vt_symbol volume gateway_name|vt_orderid].
    - rewrite call_dispatch, process_event_gateways.
      apply registry_extends_refl.
    - rewrite call_trade. apply intent_registry.
    - apply cancel_active_order_registry. }
  exact (H name).
Qed.

(** X6: dispatching events never calls a gateway, and queues exactly one
    message per trade event, in the order of the trade events, under the
    gateway name of the trade; tick, order, position, contract, account and
    log events queue nothing. *)
Theorem events_call_no_gateway (events : list Event) (self : MainEngine) :
  gateways (process_events events self).2 = gateways self
  /\ event_queue (process_events events self).2
     = event_queue self ++ trade_logs events.
Proof. apply process_events_gateways_queue. Qed.

(** X7: trading intents are not idempotent.  When the router's checks pass
    on a registered gateway, repeating the intent submits the same legs a
    second time: nothing records that they were sent, and a close intent
    does not reserve the volume it closes. *)
Theorem intent_twice_submits_twice (i : Intent) (vt_symbol : string)
    (volume : Z) (gateway_name : string) (tick : TickData.t)
    (contract : ContractData.t) (gateway : Gateway.t) (self : MainEngine) :
  ticks self !! vt_symbol = Some tick ->
  contracts self !! vt_symbol = Some contract ->
  gateways self !! gateway_name = Some gateway ->
  (intent_offset i = OPEN
   \/ exists position,
        intent_offset i = CLOSE
        /\ positions self !! opposing_positionid i gateway_name contract
           = Some position
        /\ volume
           <= PositionData.volume position - PositionData.frozen position) ->
  let once := (intent i vt_symbol volume gateway_name self).2 in
  let twice := (intent i vt_symbol volume gateway_name once).2 in
  exists reqs,
    reqs <> []
    /\ received gateway_name once = Gateway.sent_orders gateway ++ reqs
    /\ received gateway_name twice
       = Gateway.sent_orders gateway ++ reqs ++ reqs.
Proof.
  intros Ht Hc Hg Hpass. cbv zeta.
  destruct (intent_checks_pass_stable i vt_symbol volume gateway_name tick
              contract self Ht Hc Hpass) as (reqs & Hne & Hrun).
  exists reqs. split; [exact Hne|].
  rewrite (Hrun self (same_caches_refl self)).
  rewrite (send_reqs_registered _ _ _ _ _ Hg). simpl.
  rewrite (Hrun _ (after_send_same_caches gateway_name gateway reqs self)).
  rewrite (send_reqs_registered _ gateway_name (send_all gateway reqs));
    [|simpl; apply lookup_insert_eq].
  simpl. rewrite !received_after_send, sent_orders_send_all, <- app_assoc.
  auto.
Qed.

Lemma intent_twice_submits_twice_witness :
  let self := example_engine SHFE 10 1 4 in
  let once := (intent Sell "X.SHFE" 9 "G1" self).2 in
  let twice := (intent Sell "X.SHFE" 9 "G1" once).2 in
  length (received "G1" once) = 2%nat
  /\ length (received "G1" twice) = 4%nat.
Proof.
  destruct (intent_twice_submits_twice Sell "X.SHFE" 9 "G1"
              (example_tick SHFE) (example_contract SHFE) G1
              (example_engine SHFE 10 1 4) eq_refl eq_refl eq_refl)
    as (reqs & _ & Honce & Htwice).
  { right. exists (example_position SHFE 10 1 4).
    split; [reflexivity|]. split; [reflexivity|]. vm_compute. discriminate. }
  cbv zeta. split; [reflexivity|].
  rewrite Htwice. simpl in Honce. rewrite <- Honce. reflexivity.
Defined.

(** X8: cancelling does not take the order out of the active orders; only
    a later order event does.  Cancelling an active order twice hands the
    same cancel request to its gateway twice. *)
Theorem cancel_twice_sends_twice (vt_orderid : string) (order : OrderData.t)
    (gateway : Gateway.t) (self : MainEngine) :
  active_orders self !! vt_orderid = Some order ->
  gateways self !! OrderData.gateway_name order = Some gateway ->
  let once := (cancel_active_order vt_orderid self).2 in
  let twice := (cancel_active_order vt_orderid once).2 in
  active_orders once !! vt_orderid = Some order
  /\ active_orders twice !! vt_orderid = Some order
  /\ exists gateway',
       gateways twice !! OrderData.gateway_name order = Some gateway'
       /\ Gateway.sent_cancels gateway'
          = Gateway.sent_cancels gateway
              ++ [OrderData.create_cancel_request order;
                  OrderData.create_cancel_request order].
Proof.
  intros Ha Hg. cbv zeta.
  assert (Hstep : forall s g,
            active_orders s !! vt_orderid = Some order ->
            gateways s !! OrderData.gateway_name order = Some g ->
            active_orders (cancel_active_order vt_orderid s).2 !! vt_orderid
            = Some order
            /\ gateways (cancel_active_order vt_orderid s).2
                 !! OrderData.gateway_name order
               = Some (Gateway.cancel_order
                         (OrderData.create_cancel_request order) g)).
  { intros s g Hs Hgs.
    unfold cancel_active_order, bind, get_active_order, read, get_df.
    rewrite Hs. unfold _cancel_order, bind, get_gateway, read.
    rewrite Hgs. simpl. split; [exact Hs|apply lookup_insert_eq]. }
  destruct (Hstep self gateway Ha Hg) as [Ha1 Hg1].
  destruct (Hstep _ _ Ha1 Hg1) as [Ha2 Hg2].
  split; [exact Ha1|]. split; [exact Ha2|].
  eexists. split; [exact Hg2|]. simpl. rewrite <- app_assoc. reflexivity.
Qed.

Lemma cancel_twice_sends_twice_witness :
  let self :=
    (process_event (EVENT_ORDER (example_order "7" NOTTRADED))
       (example_engine SHFE 10 1 4)).2 in
  let twice :=
    (cancel_active_order "G1.7" (cancel_active_order "G1.7" self).2).2 in
  active_orders twice !! "G1.7" = Some (example_order "7" NOTTRADED)
  /\ exists gateway',
       gateways twice !! "G1" = Some gateway'
       /\ Gateway.sent_cancels gateway'
          = [CancelRequest.mk "7" "X" SHFE; CancelRequest.mk "7" "X" SHFE].
Proof.
  destruct (cancel_twice_sends_twice "G1.7" (example_order "7" NOTTRADED) G1
              (process_event (EVENT_ORDER (example_order "7" NOTTRADED))
                 (example_engine SHFE 10 1 4)).2 eq_refl eq_refl)
    as (_ & Hactive & gateway' & Hg & Hcancels).
  split; [exact Hactive|]. exists gateway'. split; [exact Hg|exact Hcancels].
Defined.

(** X9: a cancellation of an active order always queues exactly one message
    "Cancel active order" with the order's identifiers, its remaining
    volume (volume minus traded), direction and offset, and no gateway
    name; when the gateway the order names is not registered this message
    is all that happens: no gateway is called and no error is raised. *)
Theorem cancel_logs_even_without_gateway (vt_orderid : string)
    (order : OrderData.t) (self : MainEngine) :
  active_orders self !! vt_orderid = Some order ->
  let self' := (cancel_active_order vt_orderid self).2 in
  event_queue self'
  = event_queue self
      ++ [EVENT_LOG
            (LogData.mk None
               (Cancel_active_order_msg (OrderData.vt_orderid order)
                  (OrderData.vt_symbol order)
                  (OrderData.volume order - OrderData.traded order)
                  (OrderData.direction order) (OrderData.offset order))
               INFO)]
  /\ (gateways self !! OrderData.gateway_name order = None ->
      gateways self' = gateways self).
Proof.
  intros Ha. cbv zeta.
  unfold cancel_active_order, bind, get_active_order, read, get_df.
  rewrite Ha. unfold _cancel_order, bind, get_gateway, read.
  destruct (gateways self !! OrderData.gateway_name order); simpl.
  - split; [reflexivity|discriminate].
  - split; reflexivity.
Qed.

Lemma cancel_logs_even_without_gateway_witness :
  let order := OrderData.mk "G2" "X" SHFE "7" LONG OPEN 5 2 PARTTRADED in
  let self := (process_event (EVENT_ORDER order) (init {["G1" := G1]})).2 in
  let self' := (cancel_active_order "G2.7" self).2 in
  gateways self !! "G2" = None
  /\ gateways self' = gateways self
  /\ event_queue self'
     = event_queue self
         ++ [EVENT_LOG
               (LogData.mk None
                  (Cancel_active_order_msg "G2.7" "X.SHFE" 3 LONG OPEN) INFO)].
Proof.
  destruct (cancel_logs_even_without_gateway "G2.7"
              (OrderData.mk "G2" "X" SHFE "7" LONG OPEN 5 2 PARTTRADED)
              (process_event
                 (EVENT_ORDER
                    (OrderData.mk "G2" "X" SHFE "7" LONG OPEN 5 2 PARTTRADED))
                 (init {["G1" := G1]})).2 eq_refl) as [Hq Hg].
  split; [reflexivity|]. split; [exact (Hg eq_refl)|exact Hq].
Defined.

(** X10: in a mixed-aging close the close-yesterday leg is sized from the
    position alone, so it is not positive whenever the frozen volume is at
    least yesterday's volume: the intent then submits a close-yesterday
    request of volume 0 or less, and a close-today request of at least the
    whole requested volume. *)
Theorem mixed_close_yesterday_leg_not_positive (i : Intent)
    (vt_symbol : string) (volume : Z) (gateway_name : string)
    (tick : TickData.t) (contract : ContractData.t)
    (position : PositionData.t) (gateway : Gateway.t) (self : MainEngine) :
  ticks self !! vt_symbol = Some tick ->
  contracts self !! vt_symbol = Some contract ->
  intent_offset i = CLOSE ->
  positions self !! opposing_positionid i gateway_name contract
    = Some position ->
  gateways self !! gateway_name = Some gateway ->
  ContractData.exchange contract ∈ [SHFE; INE] ->
  PositionData.yd_volume position <> 0 ->
  PositionData.volume position <> PositionData.yd_volume position ->
  volume <= PositionData.volume position - PositionData.frozen position ->
  PositionData.yd_volume position <= PositionData.frozen position ->
  exists req_td req_yd,
    received gateway_name (intent i vt_symbol volume gateway_name self).2
    = Gateway.sent_orders gateway ++ [req_td; req_yd]
    /\ OrderRequest.offset req_yd = CLOSEYESTERDAY
    /\ OrderRequest.volume req_yd <= 0
    /\ OrderRequest.offset req_td = CLOSETODAY
    /\ volume <= OrderRequest.volume req_td.
Proof.
  intros Ht Hc Ho Hp Hg Hex Hyd Hne Hle Hfrozen.
  apply (bool_decide_eq_true_2 _) in Hex.
  rewrite (intent_close_mixed _ _ _ _ _ _ _ _ Ht Hc Ho Hp Hle Hex Hyd Hne).
  rewrite (send_reqs_registered _ _ _ _ _ Hg). simpl.
  rewrite received_after_send.
  eexists _, _. split; [reflexivity|]. simpl. repeat split; lia.
Qed.

Lemma mixed_close_yesterday_leg_not_positive_witness :
  exists req_td req_yd,
    received "G1"
      (intent Sell "X.SHFE" 3 "G1" (example_engine SHFE 10 6 4)).2
    = [req_td; req_yd]
    /\ OrderRequest.volume req_yd <= 0
    /\ 3 <= OrderRequest.volume req_td.
Proof.
  destruct (mixed_close_yesterday_leg_not_positive Sell "X.SHFE" 3 "G1"
              (example_tick SHFE) (example_contract SHFE)
              (example_position SHFE 10 6 4) G1 (example_engine SHFE 10 6 4)
              eq_refl eq_refl eq_refl eq_refl eq_refl
              (list_elem_of_here _ _) ltac:(discriminate) ltac:(discriminate)
              ltac:(vm_compute; discriminate) ltac:(vm_compute; discriminate))
    as (req_td & req_yd & Hreceived & _ & Hyd & _ & Htd).
  exists req_td, req_yd. split; [exact Hreceived|]. split; [exact Hyd|].
  exact Htd.
Defined.

(** X11: quotes are replaced and contracts are not.  After a tick event and
    a later contract event for a symbol whose contract is already cached,
    an open intent on a registered gateway is priced from the new tick and
    from the tick size of the contract cached first, and carries the symbol
    and exchange of that contract. *)
Theorem open_intent_after_events (i : Intent) (volume : Z)
    (gateway_name : string) (tick : TickData.t)
    (contract contract' : ContractData.t) (gateway : Gateway.t)
    (self : MainEngine) :
  contracts self !! TickData.vt_symbol tick = Some contract ->
  ContractData.vt_symbol contract' = TickData.vt_symbol tick ->
  gateways self !! gateway_name = Some gateway ->
  intent_offset i = OPEN ->
  let self' :=
    (process_events [EVENT_TICK tick; EVENT_CONTRACT contract'] self).2 in
  received gateway_name
    (intent i (TickData.vt_symbol tick) volume gateway_name self').2
  = Gateway.sent_orders gateway
      ++ [OrderRequest.mk (ContractData.symbol contract)
            (ContractData.exchange contract) (intent_direction i) LIMIT volume
            (if decide (intent_direction i = LONG)
             then (TickData.ask_price_1 tick
                   + ContractData.pricetick contract * 2)%float
             else (TickData.bid_price_1 tick
                   - ContractData.pricetick contract * 2)%float)
            OPEN].
Proof.
  intros Hc Hsym Hg Ho. cbv zeta.
  pose proof (process_events_caches [EVENT_TICK tick; EVENT_CONTRACT contract']
                self (TickData.vt_symbol tick)) as (Ht' & _ & _ & _ & Hc').
  cbv zeta in Ht', Hc'. rewrite Hc in Hc'. simpl in Ht'.
  rewrite decide_True in Ht' by reflexivity.
  pose proof (process_events_gateways_queue
                [EVENT_TICK tick; EVENT_CONTRACT contract'] self) as [Hg' _].
  rewrite <- Hg' in Hg.
  rewrite (intent_open _ _ _ _ _ _ _ Ht' Hc' Ho).
  rewrite (send_reqs_registered _ _ _ _ _ Hg). simpl.
  rewrite received_after_send. unfold leg. rewrite <- leg_price with (v := volume) (o := OPEN).
  reflexivity.
Qed.

Lemma open_intent_after_events_witness :
  let self :=
    (process_events
       [EVENT_TICK (TickData.mk "G1" "X" SHFE 100 102);
        EVENT_CONTRACT (ContractData.mk "G1" "X" SHFE 5)]
       (example_engine SHFE 10 1 4)).2 in
  received "G1" (intent Buy "X.SHFE" 1 "G1" self).2
  = [OrderRequest.mk "X" SHFE LONG LIMIT 1 104 OPEN].
Proof.
  exact (open_intent_after_events Buy 1 "G1"
           (TickData.mk "G1" "X" SHFE 100 102) (example_contract SHFE)
           (ContractData.mk "G1" "X" SHFE 5) G1 (example_engine SHFE 10 1 4)
           eq_refl eq_refl eq_refl eq_refl).
Defined.

(** * Registration and subscription *)

Lemma filter_ext_in {A} (P Q : A -> Prop) `{!forall x, Decision (P x)}
    `{!forall x, Decision (Q x)} (l : list A) :
  (forall x, x ∈ l -> P x <-> Q x) -> filter P l = filter Q l.
Proof.
  induction l as [|a l IH]; intros Hext; [reflexivity|].
  rewrite !filter_cons.
  rewrite IH by (intros x Hx; apply Hext, list_elem_of_further, Hx).
  pose proof (Hext a (list_elem_of_here _ _)) as Ha.
  destruct (decide (P a)), (decide (Q a)); tauto.
Qed.

Lemma add_gateways_loop_spec settings : forall self,
  NoDup settings.*1 ->
  (forall name, name ∈ settings.*1 -> name ∉ gateway_names self) ->
  let classes := gateway_classes self in
  let self' := add_gateways_loop settings self in
  same_but_gateways self self'
  /\ gateway_names self' = gateway_names self ++ (usable classes settings).*1
  /\ (forall name setting,
        (name, setting) ∈ settings ->
        gateways (core self') !! name
        = match setting_class classes setting with
          | Some gateway_class => Some (instantiate gateway_class name)
          | None => gateways (core self) !! name
          end)
  /\ (forall name,
        name ∉ settings.*1 ->
        gateways (core self') !! name = gateways (core self) !! name).
Proof.
  induction settings as [|[gateway_name setting] settings IH];
    intros self Hnd Hfresh; cbv zeta.
  - simpl. rewrite app_nil_r. split; [repeat split|]. split; [reflexivity|].
    split; [|reflexivity]. intros name setting Hin.
    apply elem_of_nil in Hin. destruct Hin.
  - apply NoDup_cons in Hnd as [Hhd Hnd]. simpl in Hhd.
    set (self1 := match setting !! "Gateway" with
                  | Some gateway_class_name =>
                      if decide (gateway_class_name = "") then self
                      else _add_gateway gateway_class_name gateway_name self
                  | None => self
                  end).
    change (add_gateways_loop ((gateway_name, setting) :: settings) self)
      with (add_gateways_loop settings self1).
    assert (H1 : same_but_gateways self self1
                 /\ gateway_names self1
                    = gateway_names self
                        ++ match setting_class (gateway_classes self) setting
                           with Some _ => [gateway_name] | None => [] end
                 /\ gateways (core self1) !! gateway_name
                    = match setting_class (gateway_classes self) setting with
                      | Some gateway_class =>
                          Some (instantiate gateway_class gateway_name)
                      | None => gateways (core self) !! gateway_name
                      end
                 /\ forall name, name <> gateway_name ->
                      gateways (core self1) !! name
                      = gateways (core self) !! name).
    { assert (Hno : gateway_name ∉ gateway_names self).
      { apply Hfresh. simpl. apply list_elem_of_here. }
      subst self1. unfold setting_class.
      destruct (setting !! "Gateway") as [cn|];
        [destruct (decide (cn = ""))|];
        try (rewrite app_nil_r; repeat split; fail).
      unfold _add_gateway, get_gateway_class.
      destruct (gateway_classes self !! cn) as [gc|];
        [|rewrite app_nil_r; repeat split].
      unfold register_gateway. simpl.
      rewrite decide_False by exact Hno.
      split; [repeat split|]. split; [reflexivity|].
      split; [apply lookup_insert_eq|].
      intros name Hne. apply lookup_insert_ne. congruence. }
    destruct H1 as ((Hc1 & Hq1 & Hcl1 & Hs1 & Hg1) & Hn1 & Hl1 & Ho1).
    destruct (IH self1) as ((Hc & Hq & Hcl & Hs & Hg) & Hn & Hl & Ho).
    { exact Hnd. }
    { intros name Hin. rewrite Hn1. intros Hin'.
      apply elem_of_app in Hin' as [Hin'|Hin'].
      - apply (Hfresh name); [simpl; apply list_elem_of_further, Hin|exact Hin'].
      - destruct (setting_class (gateway_classes self) setting);
          [|apply elem_of_nil in Hin'; exact Hin'].
        apply list_elem_of_singleton in Hin'. subst name. apply Hhd, Hin. }
    rewrite <- Hcl1 in *.
    split; [|split; [|split]].
    + split; [eapply same_caches_trans; eauto|].
      repeat split; congruence.
    + rewrite Hn, Hn1, <- app_assoc. f_equal. unfold usable.
      rewrite filter_cons. simpl.
      destruct (setting_class (gateway_classes self) setting) eqn:E.
      * rewrite decide_True by eauto. reflexivity.
      * rewrite decide_False by (intros [? ?]; discriminate). reflexivity.
    + intros name s Hin. apply elem_of_cons in Hin as [Heq|Hin].
      * injection Heq as -> ->. rewrite Ho; [exact Hl1|exact Hhd].
      * rewrite (Hl name s Hin).
        destruct (setting_class (gateway_classes self) s); [reflexivity|].
        apply Ho1. intros ->. apply Hhd.
        apply list_elem_of_fmap. exists (gateway_name, s). auto.
    + intros name Hnot. simpl in Hnot. apply not_elem_of_cons in Hnot as [? ?].
      rewrite Ho by assumption. apply Ho1. assumption.
Qed.

Lemma connect_gateways_spec settings : forall self,
  let self' := _connect_gateways settings self in
  core self' = core self
  /\ gateway_names self' = gateway_names self
  /\ gateway_classes self' = gateway_classes self
  /\ susbcribe_gateway_name self' = susbcribe_gateway_name self
  /\ gateway_calls self'
     = gateway_calls self
         ++ map (fun entry => (entry.1, Connect entry.2))
              (filter (fun entry =>
                         is_Some (gateways (core self) !! entry.1)) settings).
Proof.
  induction settings as [|[gateway_name setting] settings IH]; intros self;
    cbv zeta.
  - simpl. rewrite app_nil_r. repeat split.
  - change (_connect_gateways ((gateway_name, setting) :: settings) self)
      with (_connect_gateways settings (_connect setting gateway_name self)).
    destruct (IH (_connect setting gateway_name self))
      as (Hc & Hn & Hcl & Hs & Hcalls).
    rewrite Hc, Hn, Hcl, Hs, Hcalls. rewrite filter_cons. simpl.
    unfold _connect, get_gateway, read. simpl.
    destruct (gateways (core self) !! gateway_name) as [g|] eqn:Hg; simpl.
    + rewrite <- app_assoc. repeat split.
    + repeat split.
Qed.

Lemma add_gateway_classes_spec gcs : forall self,
  let self' := _add_gateway_classes gcs self in
  core self' = core self
  /\ gateway_names self' = gateway_names self
  /\ susbcribe_gateway_name self' = susbcribe_gateway_name self
  /\ gateway_calls self' = gateway_calls self.
Proof.
  induction gcs as [|gc gcs IH]; intros self; cbv zeta; [repeat split|].
  destruct (IH (_add_gateway_class gc self)) as (? & ? & ? & ?).
  simpl. repeat split; assumption.
Qed.

Lemma init_spec gcs settings :
  NoDup settings.*1 ->
  let classes := registered_classes gcs in
  match usable classes settings with
  | [] => __init__ gcs settings = inl IndexError
  | (first, _) :: _ =>
      exists self,
        __init__ gcs settings = inr self
        /\ gateway_names self = (usable classes settings).*1
        /\ susbcribe_gateway_name self = Some first
        /\ (forall name setting,
              (name, setting) ∈ settings ->
              gateways (core self) !! name
              = match setting_class classes setting with
                | Some gateway_class => Some (instantiate gateway_class name)
                | None => None
                end)
        /\ (forall name,
              name ∉ settings.*1 -> gateways (core self) !! name = None)
        /\ gateway_calls self
           = map (fun entry => (entry.1, Connect entry.2))
               (usable classes settings)
        /\ core self = init (gateways (core self))
  end.
Proof.
  intros Hnd. cbv zeta. unfold __init__.
  change (mkEngine (mkMainEngine ∅ ∅ ∅ ∅ ∅ ∅ ∅ ∅ []) [] ∅ None []) with blank.
  destruct (add_gateway_classes_spec gcs blank) as (Hc0 & Hn0 & Hs0 & Hcalls0).
  set (self0 := _add_gateway_classes gcs blank) in *.
  destruct (add_gateways_loop_spec settings self0 Hnd)
    as ((Hcaches & Hq & Hcl & Hs & Hcalls) & Hn & Hl & Ho).
  { intros name _. rewrite Hn0. apply not_elem_of_nil. }
  change (gateway_classes self0) with (registered_classes gcs) in Hn, Hl.
  rewrite Hn0 in Hn. simpl in Hn.
  assert (Hl' : forall name setting,
            (name, setting) ∈ settings ->
            gateways (core (add_gateways_loop settings self0)) !! name
            = match setting_class (registered_classes gcs) setting with
              | Some gateway_class => Some (instantiate gateway_class name)
              | None => None
              end).
  { intros name setting Hin. rewrite (Hl name setting Hin), Hc0.
    destruct (setting_class _ setting); reflexivity. }
  unfold _add_gateways, _add_subscribe_gateway_name, get_all_gateway_names.
  rewrite <- Hs, Hs0, Hn.
  destruct (usable (registered_classes gcs) settings) as [|[first s] rest]
    eqn:Hus; [reflexivity|].
  cbn.
  match goal with
  | |- context [_connect_gateways settings ?e] => set (E := e)
  end.
  destruct (connect_gateways_spec settings E)
    as (Hc1 & Hn1 & Hcl1 & Hs1 & Hcalls1).
  eexists. split; [reflexivity|].
  unfold log_in. cbn [core gateway_names susbcribe_gateway_name gateway_calls].
  rewrite Hn1, Hs1, Hcalls1, Hc1. subst E.
  cbn [core gateway_names susbcribe_gateway_name gateway_calls].
  split; [reflexivity|]. split; [reflexivity|].
  split; [exact Hl'|].
  split; [intros name Hnot; refine (eq_trans (Ho name Hnot) _);
          rewrite Hc0; reflexivity|].
  split.
  - rewrite <- Hcalls, Hcalls0.
    change ((first, Connect s)
            :: map (fun entry : string * gmap string string =>
                      (entry.1, Connect entry.2)) rest)
      with (map (fun entry : string * gmap string string =>
                   (entry.1, Connect entry.2)) ((first, s) :: rest)).
    rewrite <- Hus. simpl. f_equal. unfold usable.
    apply filter_ext_in.
    intros [name setting] Hin. simpl. rewrite (Hl' name setting Hin).
    destruct (setting_class _ setting); split; intros [? ?]; eauto;
      discriminate.
  - destruct Hcaches as (Et & Eo & Etr & Ea & Ec & Ep & Eac).
    rewrite Hc0 in Et, Eo, Etr, Ea, Ec, Ep, Eac, Hq. simpl in Et, Eo, Etr, Ea, Ec, Ep, Eac, Hq.
    apply MainEngine_eq; simpl; try congruence.
    rewrite <- Hq. reflexivity.
Qed.

(** X12: for settings that, as a dict, hold each gateway name once,
    [__init__] registers a gateway for exactly the settings entries
    whose "Gateway" value is the name of a gateway class it was given; an
    entry without that value, with an empty one or with an unknown class
    name is skipped without a message.  The gateways are kept in the order
    of the settings and the first of them becomes the subscribe gateway;
    when no entry yields a gateway, as for empty settings, [__init__]
    fails with an IndexError. *)
Theorem init_registers_usable_settings (gcs : list GatewayClass)
    (settings : list (string * gmap string string)) :
  NoDup settings.*1 ->
  let classes := registered_classes gcs in
  match usable classes settings with
  | [] => __init__ gcs settings = inl IndexError
  | (first, _) :: _ =>
      exists self,
        __init__ gcs settings = inr self
        /\ get_all_gateway_names self = (usable classes settings).*1
        /\ get_subscribe_gateway_name self = Some first
        /\ (forall name setting,
              (name, setting) ∈ settings ->
              (get_gateway name (core self)).1
              = match setting_class classes setting with
                | Some gateway_class => Some (instantiate gateway_class name)
                | None => None
                end)
        /\ (forall name,
              name ∉ settings.*1 -> (get_gateway name (core self)).1 = None)
  end.
Proof.
  intros Hnd. cbv zeta. pose proof (init_spec gcs settings Hnd) as H.
  cbv zeta in H.
  destruct (usable (registered_classes gcs) settings) as [|[first s] rest];
    [exact H|].
  destruct H as (self & Hinit & Hn & Hs & Hl & Ho & _).
  exists self. auto.
Qed.

Lemma example_settings_NoDup : NoDup example_settings.*1.
Proof.
  simpl. repeat (apply NoDup_cons; split;
    [intros Hin; repeat (apply elem_of_cons in Hin as [Hin|Hin];
                         [discriminate|]);
     apply elem_of_nil in Hin; exact Hin|]).
  apply NoDup_nil. exact I.
Qed.

Lemma init_registers_usable_settings_witness :
  __init__ [example_class] [] = inl IndexError
  /\ exists self,
       __init__ [example_class] example_settings = inr self
       /\ get_all_gateway_names self = ["A"; "D"]
       /\ get_subscribe_gateway_name self = Some "A"
       /\ (get_gateway "B" (core self)).1 = None.
Proof.
  split.
  - exact (init_registers_usable_settings [example_class] [] (NoDup_nil_2)).
  - pose proof (init_registers_usable_settings [example_class]
                  example_settings example_settings_NoDup) as H.
    cbv zeta in H.
    change (usable (registered_classes [example_class]) example_settings)
      with [("A", ({["Gateway" := "CtpGateway"]} : gmap string string));
            ("D", {["Gateway" := "CtpGateway"; "Host" := "tcp"]})] in H.
    destruct H as (self & Hinit & Hn & Hs & Hl & _).
    exists self. split; [exact Hinit|]. split; [exact Hn|].
    split; [exact Hs|].
    exact (Hl "B" {["Gateway" := "IbGateway"]}
             (list_elem_of_further _ _ _ (list_elem_of_here _ _))).
Defined.

(** X13: for settings that hold each gateway name once, when [__init__]
    succeeds it has called [connect] exactly once on
    each registered gateway, with the settings entry of that gateway, in
    the order of the settings, and on nothing else; the caches are empty
    and the one queued message is "Engine inited". *)
Theorem init_connects_registered_gateways (gcs : list GatewayClass)
    (settings : list (string * gmap string string)) (self : Engine) :
  NoDup settings.*1 ->
  __init__ gcs settings = inr self ->
  gateway_calls self
  = map (fun entry => (entry.1, Connect entry.2))
      (usable (registered_classes gcs) settings)
  /\ core self = init (gateways (core self)).
Proof.
  intros Hnd Hinit. pose proof (init_spec gcs settings Hnd) as H.
  cbv zeta in H.
  destruct (usable (registered_classes gcs) settings) as [|[first s] rest];
    [congruence|].
  destruct H as (self' & Hinit' & _ & _ & _ & _ & Hcalls & Hcore).
  rewrite Hinit in Hinit'. injection Hinit' as <-. auto.
Qed.

Lemma init_connects_registered_gateways_witness :
  exists self,
    __init__ [example_class] example_settings = inr self
    /\ gateway_calls self
       = [("A", Connect {["Gateway" := "CtpGateway"]});
          ("D", Connect {["Gateway" := "CtpGateway"; "Host" := "tcp"]})].
Proof.
  pose proof (init_spec [example_class] example_settings
                example_settings_NoDup) as H.
  cbv zeta in H.
  change (usable (registered_classes [example_class]) example_settings)
    with [("A", ({["Gateway" := "CtpGateway"]} : gmap string string));
          ("D", {["Gateway" := "CtpGateway"; "Host" := "tcp"]})] in H.
  destruct H as (self & Hinit & _).
  exists self. split; [exact Hinit|].
  apply (init_connects_registered_gateways [example_class] example_settings
           self example_settings_NoDup Hinit).
Defined.

Lemma subscribe_loop_spec vt_symbols : forall gateway_name gateway self,
  gateways (core self) !! gateway_name = Some gateway ->
  let self' := subscribe_loop vt_symbols gateway_name self in
  core self' = core self
  /\ gateway_names self' = gateway_names self
  /\ gateway_classes self' = gateway_classes self
  /\ susbcribe_gateway_name self' = susbcribe_gateway_name self
  /\ gateway_calls self'
     = gateway_calls self
         ++ map (fun req => (gateway_name, Subscribe req))
              (subscribe_requests (contracts (core self)) vt_symbols).
Proof.
  induction vt_symbols as [|vt_symbol vt_symbols IH];
    intros gateway_name gateway self Hg; cbv zeta.
  - simpl. rewrite app_nil_r. repeat split.
  - simpl. unfold get_contract, read, get_df. simpl.
    destruct (contracts (core self) !! vt_symbol) as [contract|] eqn:Hc.
    + unfold _subscribe, get_gateway, read. simpl. rewrite Hg.
      destruct (IH gateway_name gateway
                  (call_gateway gateway_name
                     (Subscribe
                        (SubscribeRequest.mk (ContractData.symbol contract)
                           (ContractData.exchange contract))) self) Hg)
        as (H1 & H2 & H3 & H4 & H5).
      rewrite H1, H2, H3, H4, H5. simpl. rewrite <- app_assoc.
      repeat split.
    + apply (IH gateway_name gateway self Hg).
Qed.

(** X14: [susbcribe] hands to the subscribe gateway, and to no other, one
    subscribe request per listed symbol that has a contract cached, built
    from that contract's symbol and exchange, in the order of the list and
    with repetitions; a symbol without a cached contract is skipped without
    a message.  One message "Subscribe ..." is queued in the end, also when
    nothing was subscribed.  Nothing at all happens when the subscribe
    gateway name is unset or empty. *)
Theorem susbcribe_spec (str : list string -> string)
    (vt_symbols : list string) (self : Engine) :
  (forall gateway_name gateway,
     get_subscribe_gateway_name self = Some gateway_name ->
     gateway_name <> "" ->
     gateways (core self) !! gateway_name = Some gateway ->
     let self' := susbcribe str vt_symbols self in
     gateway_calls self'
     = gateway_calls self
         ++ map (fun req => (gateway_name, Subscribe req))
              (subscribe_requests (contracts (core self)) vt_symbols)
     /\ event_queue (core self')
        = event_queue (core self)
            ++ [EVENT_LOG
                  (LogData.mk (Some gateway_name)
                     (Literal ("Subscribe " +:+ str vt_symbols)) INFO)]
     /\ same_caches (core self) (core self')
     /\ gateways (core self') = gateways (core self))
  /\ (get_subscribe_gateway_name self = None
      \/ get_subscribe_gateway_name self = Some "" ->
      susbcribe str vt_symbols self = self).
Proof.
  split.
  - intros gateway_name gateway Hs Hne Hg. cbv zeta. unfold susbcribe.
    rewrite Hs, decide_False by exact Hne.
    destruct (subscribe_loop_spec vt_symbols gateway_name gateway self Hg)
      as (H1 & _ & _ & _ & H5).
    unfold log_in. simpl. rewrite H1, H5. repeat split.
  - intros [Hs|Hs]; unfold susbcribe; rewrite Hs; reflexivity.
Qed.

Lemma susbcribe_spec_witness :
  let self :=
    mkEngine (example_engine SHFE 10 1 4) ["G1"] ∅ (Some "G1") [] in
  gateway_calls
    (susbcribe (fun _ => "[...]") ["X.SHFE"; "Y.SHFE"; "X.SHFE"] self)
  = [("G1", Subscribe (SubscribeRequest.mk "X" SHFE));
     ("G1", Subscribe (SubscribeRequest.mk "X" SHFE))].
Proof.
  destruct (susbcribe_spec (fun _ => "[...]") ["X.SHFE"; "Y.SHFE"; "X.SHFE"]
              (mkEngine (example_engine SHFE 10 1 4) ["G1"] ∅ (Some "G1") []))
    as [H _].
  destruct (H "G1" G1 eq_refl ltac:(discriminate) eq_refl) as [Hcalls _].
  exact Hcalls.
Defined.

(** * The data engine *)

Section DataEngineFacts.
Context {ext : External}.

(** X15: the data engine's file operations need the path to have been
    added: for a gateway without a backup file path [load_data] and
    [delete_backup_file] raise AttributeError, [load_data] even when a load
    file path was added; [delete_load_file] raises it without a load file
    path, and [backup_data] raises it when no data is held for the gateway.
    Nothing is changed, read or logged before the error. *)
Theorem data_engine_unregistered_raises (gateway_name : string)
    (self : DataEngine) :
  (get_backup_file_path gateway_name self = None ->
   load_data gateway_name self = (inl AttributeError, self)
   /\ delete_backup_file gateway_name self = (inl AttributeError, self))
  /\ (get_load_file_path gateway_name self = None ->
      delete_load_file gateway_name self = (inl AttributeError, self))
  /\ (get_data gateway_name self = None ->
      backup_data gateway_name self = (inl AttributeError, self)).
Proof.
  split; [|split].
  - intros H. unfold load_data, delete_backup_file. rewrite H. auto.
  - intros H. unfold delete_load_file. rewrite H. reflexivity.
  - intros H. unfold backup_data. rewrite H. reflexivity.
Qed.

(** X16: [load_data] reads the backup file when the gateway's backup path
    exists and the load file otherwise.  When the read succeeds the frame is
    returned and held for the gateway, the data of other gateways and the
    files are untouched, and "Data loaded" is queued; when the read raises,
    the exception reaches the caller and the engine is as before: the data
    held so far stays and nothing is logged. *)
Theorem load_data_prefers_backup (gateway_name : string)
    (backup_path : Path) (self : DataEngine) :
  get_backup_file_path gateway_name self = Some backup_path ->
  let file_path :=
    if path_exists backup_path (files self) then Some backup_path
    else get_load_file_path gateway_name self in
  let r := load_data gateway_name self in
  match read_csv file_path (files self) with
  | inr data =>
      r.1 = inr data
      /\ get_data gateway_name r.2 = Some data
      /\ (forall other, other <> gateway_name ->
            get_data other r.2 = get_data other self)
      /\ files r.2 = files self
      /\ event_queue (main_engine r.2)
         = event_queue (main_engine self)
             ++ [EVENT_LOG
                   (LogData.mk (Some gateway_name) (Literal "Data loaded")
                      INFO)]
  | inl e => r = (inl e, self)
  end.
Proof.
  intros Hb. cbv zeta. unfold load_data. rewrite Hb.
  destruct (read_csv _ (files self)) as [e|data]; [reflexivity|].
  simpl. unfold get_data. simpl.
  split; [reflexivity|]. split; [apply lookup_insert_eq|].
  split; [|split; reflexivity].
  intros other Hne. apply lookup_insert_ne. congruence.
Qed.

(** X17: a backup is what the next load reads.  When [backup_data] has
    written the data held for a gateway without an error and the backup path
    exists afterwards, [load_data] returns and holds what [read_csv] gives
    for the backup file, whatever the load file holds. *)
Theorem backup_then_load_reads_backup (gateway_name : string)
    (backup_path : Path) (data data' : DataFrame) (fs : FileSystem)
    (self : DataEngine) :
  get_backup_file_path gateway_name self = Some backup_path ->
  get_data gateway_name self = Some data ->
  to_csv data (Some backup_path) (files self) = (fs, None) ->
  path_exists backup_path fs = true ->
  read_csv (Some backup_path) fs = inr data' ->
  let backed := backup_data gateway_name self in
  let loaded := load_data gateway_name backed.2 in
  backed.1 = inr tt
  /\ files backed.2 = fs
  /\ loaded.1 = inr data'
  /\ get_data gateway_name loaded.2 = Some data'.
Proof.
  intros Hb Hd Hcsv Hex Hread. cbv zeta.
  unfold backup_data. rewrite Hd, Hb, Hcsv. simpl.
  unfold load_data, get_backup_file_path. simpl.
  unfold get_backup_file_path in Hb. rewrite Hb, Hex, Hread. simpl.
  unfold get_data. simpl. rewrite lookup_insert_eq. auto.
Qed.

End DataEngineFacts.

Lemma data_engine_unregistered_raises_witness :
  get_load_file_path "G1" example_loadable = Some "order/G1.csv"
  /\ load_data "G1" example_loadable = (inl AttributeError, example_loadable)
  /\ backup_data "G1" example_loadable
     = (inl AttributeError, example_loadable).
Proof.
  destruct (data_engine_unregistered_raises "G1" example_loadable)
    as (Hload & _ & Hbackup).
  split; [reflexivity|].
  split; [apply (Hload eq_refl)|apply (Hbackup eq_refl)].
Defined.

Lemma load_data_prefers_backup_witness :
  let r := load_data "G1" example_data_engine in
  r.1 = inr "orders" /\ get_data "G1" r.2 = Some "orders".
Proof.
  pose proof (load_data_prefers_backup (ext := example_external) "G1" "backup/G1_backup.csv"
                example_data_engine eq_refl) as H.
  cbv zeta in H. hnf in H.
  destruct H as (H1 & H2 & _). split; [exact H1|exact H2].
Defined.

Lemma backup_then_load_reads_backup_witness :
  let loaded := load_data "G1" (backup_data "G1" example_filled).2 in
  loaded.1 = inr "filled" /\ get_data "G1" loaded.2 = Some "filled".
Proof.
  destruct (backup_then_load_reads_backup (ext := example_external) "G1"
              "backup/G1_backup.csv" "filled" "filled"
              (<["backup/G1_backup.csv" := "filled"]>
                 ({["order/G1.csv" := "orders"]} : gmap string string))
              example_filled eq_refl eq_refl eq_refl eq_refl eq_refl)
    as (_ & _ & H1 & H2).
  split; [exact H1|exact H2].
Defined.

(** * The router when the gateway call raises *)

Lemma raises_send_order_unregistered raising req gateway_name self :
  gateways self !! gateway_name = None ->
  Raises._send_order raising req gateway_name self = (inr "", self).
Proof.
  intros Hg. unfold Raises._send_order, fbind, lift, get_gateway, read.
  rewrite Hg. reflexivity.
Qed.

Lemma raises_send_order_registered raising req gateway_name gateway self :
  gateways self !! gateway_name = Some gateway ->
  Raises._send_order raising req gateway_name self
  = match raising gateway_name (Gateway.sent_orders gateway) req with
    | Some e => (inl e, self)
    | None => (inr (Gateway.send_order req gateway).1,
               after_send gateway_name gateway [req] self)
    end.
Proof.
  intros Hg.
  unfold Raises._send_order, fbind, lift, get_gateway, read,
    Raises.gateway_send_order.
  rewrite Hg.
  destruct (raising gateway_name (Gateway.sent_orders gateway) req);
    reflexivity.
Qed.

Lemma raises_send_reqs_unregistered raising reqs :
  forall gateway_name vt_orderids self,
  gateways self !! gateway_name = None ->
  Raises.send_reqs raising reqs gateway_name vt_orderids self
  = (inr (vt_orderids ++ map (fun _ => "") reqs), self).
Proof.
  induction reqs as [|req reqs IH]; intros gateway_name ids self Hg.
  - simpl. rewrite app_nil_r. reflexivity.
  - simpl. unfold fbind.
    rewrite (raises_send_order_unregistered _ _ _ _ Hg).
    rewrite (IH _ _ _ Hg), <- app_assoc. reflexivity.
Qed.

(** A sequence that is returned is the one of the router whose gateway
    calls all return. *)
Lemma raises_send_reqs_returns raising reqs :
  forall gateway_name vt_orderids self ids self',
  Raises.send_reqs raising reqs gateway_name vt_orderids self
  = (inr ids, self') ->
  send_reqs reqs gateway_name vt_orderids self = (ids, self').
Proof.
  induction reqs as [|req reqs IH]; intros gateway_name ids0 self ids self'.
  - simpl. unfold fret, ret. intros H. injection H as <- <-. reflexivity.
  - simpl. unfold fbind, bind.
    destruct (gateways self !! gateway_name) as [gateway|] eqn:Hg.
    + rewrite (raises_send_order_registered _ _ _ _ _ Hg),
        (_send_order_registered _ _ _ _ Hg).
      destruct (raising gateway_name (Gateway.sent_orders gateway) req);
        [discriminate|].
      apply IH.
    + rewrite (raises_send_order_unregistered _ _ _ _ Hg),
        (_send_order_unregistered _ _ _ Hg).
      apply IH.
Qed.

Lemma raises_send_reqs_never raising reqs :
  forall gateway_name vt_orderids self,
  (forall received req, raising gateway_name received req = None) ->
  Raises.send_reqs raising reqs gateway_name vt_orderids self
  = lift (send_reqs reqs gateway_name vt_orderids) self.
Proof.
  induction reqs as [|req reqs IH]; intros gateway_name ids self Hnever.
  - reflexivity.
  - simpl. unfold fbind, bind, lift.
    destruct (gateways self !! gateway_name) as [gateway|] eqn:Hg.
    + rewrite (raises_send_order_registered _ _ _ _ _ Hg),
        (_send_order_registered _ _ _ _ Hg), Hnever.
      rewrite (IH _ _ _ Hnever). reflexivity.
    + rewrite (raises_send_order_unregistered _ _ _ _ Hg),
        (_send_order_unregistered _ _ _ Hg).
      rewrite (IH _ _ _ Hnever). reflexivity.
Qed.

(** An exception that comes out was raised by the gateway call. *)
Lemma raises_send_reqs_raised raising reqs :
  forall gateway_name vt_orderids self e,
  (Raises.send_reqs raising reqs gateway_name vt_orderids self).1 = inl e ->
  is_Some (gateways self !! gateway_name)
  /\ exists received req, raising gateway_name received req = Some e.
Proof.
  induction reqs as [|req reqs IH]; intros gateway_name ids self e.
  - discriminate.
  - simpl. unfold fbind.
    destruct (gateways self !! gateway_name) as [gateway|] eqn:Hg.
    + rewrite (raises_send_order_registered _ _ _ _ _ Hg).
      destruct (raising gateway_name (Gateway.sent_orders gateway) req)
        as [e'|] eqn:Hr.
      * simpl. intros H. injection H as <-. split; eauto.
      * intros H. apply IH in H as [_ H]. split; eauto.
    + rewrite (raises_send_order_unregistered _ _ _ _ Hg).
      rewrite (raises_send_reqs_unregistered _ _ _ _ _ Hg). discriminate.
Qed.

(** The first call that raises ends the loop: the legs before it are
    submitted and logged, the identifiers collected so far are lost. *)
Lemma raises_send_reqs_first_raise raising reqs :
  forall gateway_name gateway vt_orderids self k req e,
  gateways self !! gateway_name = Some gateway ->
  reqs !! k = Some req ->
  (forall j req',
     (j < k)%nat -> reqs !! j = Some req' ->
     raising gateway_name (Gateway.sent_orders gateway ++ take j reqs) req'
     = None) ->
  raising gateway_name (Gateway.sent_orders gateway ++ take k reqs) req
  = Some e ->
  Raises.send_reqs raising reqs gateway_name vt_orderids self
  = (inl e, after_send gateway_name gateway (take k reqs) self).
Proof.
  induction reqs as [|r reqs IH];
    intros gateway_name gateway ids self k req e Hg Hk Hbefore Hraise.
  - destruct k; discriminate.
  - simpl. unfold fbind.
    rewrite (raises_send_order_registered _ _ _ _ _ Hg).
    destruct k as [|k].
    + simpl in Hk, Hraise. injection Hk as ->. rewrite app_nil_r in Hraise.
      rewrite Hraise. simpl. rewrite after_send_nil by exact Hg.
      reflexivity.
    + pose proof (Hbefore 0%nat r (Nat.lt_0_succ k) eq_refl) as H0.
      simpl in H0. rewrite app_nil_r in H0. rewrite H0.
      rewrite (IH gateway_name (Gateway.send_order r gateway).2 _ _ k req e).
      * rewrite after_send_cons. reflexivity.
      * simpl. apply lookup_insert_eq.
      * exact Hk.
      * intros j req' Hj Hreq'.
        pose proof (Hbefore (S j) req' ltac:(lia) Hreq') as H.
        simpl. rewrite <- app_assoc. exact H.
      * simpl. rewrite <- app_assoc. exact Hraise.
Qed.

Lemma send_reqs_not_aborted reqs msg gateway_name self :
  reqs <> [] ->
  ~ aborted msg gateway_name self (send_reqs reqs gateway_name [] self).
Proof.
  intros Hne (_ & Hq & _).
  destruct (gateways self !! gateway_name) as [gateway|] eqn:Hg.
  - rewrite (send_reqs_registered _ _ _ _ _ Hg) in Hq. simpl in Hq.
    apply app_inv_head in Hq.
    destruct reqs as [|req reqs]; [congruence|]. simpl in Hq.
    discriminate Hq.
  - rewrite (send_reqs_unregistered _ _ _ _ Hg) in Hq. simpl in Hq.
    apply (f_equal length) in Hq. rewrite length_app in Hq. simpl in Hq.
    lia.
Qed.

(** The raising router takes the branches of the router. *)
Lemma raises_intent_bridge raising i vt_symbol volume gateway_name self :
  (Raises.intent raising i vt_symbol volume gateway_name self
   = lift (intent i vt_symbol volume gateway_name) self
   /\ exists msg,
        aborted msg gateway_name self
          (intent i vt_symbol volume gateway_name self))
  \/ (exists reqs,
        reqs <> []
        /\ intent i vt_symbol volume gateway_name self
           = send_reqs reqs gateway_name [] self
        /\ Raises.intent raising i vt_symbol volume gateway_name self
           = Raises.send_reqs raising reqs gateway_name [] self).
Proof.
  assert (Hleaf : forall reqs,
            reqs <> [] ->
            exists reqs',
              reqs' <> []
              /\ send_reqs reqs gateway_name [] self
                 = send_reqs reqs' gateway_name [] self
              /\ Raises.send_reqs raising reqs gateway_name [] self
                 = Raises.send_reqs raising reqs' gateway_name [] self)
    by (intros reqs Hne; exists reqs; auto).
  destruct i;
    unfold Raises.intent, intent, Raises.buy, Raises.sell, Raises.short,
      Raises.cover, buy, sell, short, cover, Raises._send_taker_order,
      _send_taker_order, fbind, bind, lift, get_tick, get_contract,
      get_position, read, get_df, log, modify, ret, fret, aborted;
    (destruct (ticks self !! vt_symbol) as [tick|];
     [destruct (contracts self !! vt_symbol) as [contract|]|]);
    repeat match goal with
           | |- context [decide (?a = ?b)] =>
               first [rewrite (decide_True (P := a = b)) by reflexivity
                     |rewrite (decide_False (P := a = b)) by discriminate]
           end;
    cbn -[send_reqs Raises.send_reqs];
    try (left; split; [reflexivity|]; eexists; repeat split; fail);
    try (right; apply Hleaf; discriminate);
    (destruct (positions self !! _) as [position|];
     cbn -[send_reqs Raises.send_reqs];
     [|left; split; [reflexivity|]; eexists; repeat split]);
    (destruct (_ <? _); cbn -[send_reqs Raises.send_reqs];
     [left; split; [reflexivity|]; eexists; repeat split|]);
    (destruct (aging_exchange _);
     [|right; apply Hleaf; discriminate]);
    (destruct (_ =? 0); [right; apply Hleaf; discriminate|]);
    (destruct (_ =? _); right; apply Hleaf; discriminate).
Qed.

Lemma lift_run {A} (m : Method A) self :
  lift m self = (inr (m self).1, (m self).2).
Proof. unfold lift. destruct (m self). reflexivity. Qed.

Lemma raises_intent_aborted raising i vt_symbol volume gateway_name msg self :
  aborted msg gateway_name self (intent i vt_symbol volume gateway_name self) ->
  Raises.intent raising i vt_symbol volume gateway_name self
  = lift (intent i vt_symbol volume gateway_name) self.
Proof.
  intros Hab.
  destruct (raises_intent_bridge raising i vt_symbol volume gateway_name self)
    as [[H _] | (reqs & Hne & Hrun & _)]; [exact H|].
  rewrite Hrun in Hab. destruct (send_reqs_not_aborted _ _ _ _ Hne Hab).
Qed.

Lemma raises_intent_legs raising i vt_symbol volume gateway_name tick contract
    self :
  ticks self !! vt_symbol = Some tick ->
  contracts self !! vt_symbol = Some contract ->
  (intent_offset i = OPEN
   \/ exists position,
        intent_offset i = CLOSE
        /\ positions self !! opposing_positionid i gateway_name contract
           = Some position
        /\ volume
           <= PositionData.volume position - PositionData.frozen position) ->
  exists reqs,
    reqs <> []
    /\ intent i vt_symbol volume gateway_name self
       = send_reqs reqs gateway_name [] self
    /\ Raises.intent raising i vt_symbol volume gateway_name self
       = Raises.send_reqs raising reqs gateway_name [] self.
Proof.
  intros Ht Hc Hpass.
  destruct (intent_checks_pass i vt_symbol volume gateway_name tick contract
              self Ht Hc Hpass) as (reqs0 & Hne0 & _ & Hrun0).
  destruct (raises_intent_bridge raising i vt_symbol volume gateway_name self)
    as [[_ (msg & Hab)] | H]; [|exact H].
  rewrite Hrun0 in Hab. destruct (send_reqs_not_aborted _ _ _ _ Hne0 Hab).
Qed.

(** C2 (as amended): a failure of one of the router's own checks (missing
    market data, missing position, insufficient close volume) resolves
    locally to the single empty identifier plus one logged message.  For an
    unregistered gateway name every leg resolves to an empty identifier and
    no gateway is called, but nothing is logged when the router's own checks
    pass.  On a registered gateway a returned sequence is not empty and one
    message is logged per identifier, also for a leg the gateway refuses by
    returning the empty identifier.  An exception, however, is signaled to
    the caller: nothing catches what the gateway's [send_order] raises.  It
    is the only source of an exception; the first call that raises ends the
    intent, the legs submitted before it stay submitted and logged, and no
    sequence is returned.  When no call raises, the outcome is that of
    [intent]. *)
Theorem failures_resolve_locally (raising : Raising) (i : Intent)
    (vt_symbol : string) (volume : Z) (gateway_name : string)
    (self : MainEngine) :
  let r := Raises.intent raising i vt_symbol volume gateway_name self in
  (ticks self !! vt_symbol = None \/ contracts self !! vt_symbol = None ->
   r.1 = inr [""]
   /\ aborted "Tick or contract data is none" gateway_name self ([""], r.2))
  /\ (forall tick contract,
        ticks self !! vt_symbol = Some tick ->
        contracts self !! vt_symbol = Some contract ->
        intent_offset i = CLOSE ->
        positions self !! opposing_positionid i gateway_name contract = None ->
        r.1 = inr [""]
        /\ aborted "Position data is none" gateway_name self ([""], r.2))
  /\ (forall tick contract position,
        ticks self !! vt_symbol = Some tick ->
        contracts self !! vt_symbol = Some contract ->
        intent_offset i = CLOSE ->
        positions self !! opposing_positionid i gateway_name contract
          = Some position ->
        PositionData.volume position - PositionData.frozen position < volume ->
        r.1 = inr [""]
        /\ aborted "No enough close volume" gateway_name self ([""], r.2))
  /\ (gateways self !! gateway_name = None ->
      exists ids,
        r.1 = inr ids
        /\ ids <> []
        /\ Forall (fun vt_orderid => vt_orderid = "") ids
        /\ gateways r.2 = gateways self
        /\ forall tick contract,
             ticks self !! vt_symbol = Some tick ->
             contracts self !! vt_symbol = Some contract ->
             (intent_offset i = OPEN
              \/ exists position,
                   intent_offset i = CLOSE
                   /\ positions self
                        !! opposing_positionid i gateway_name contract
                      = Some position
                   /\ volume
                      <= PositionData.volume position
                         - PositionData.frozen position) ->
             r.2 = self)
  /\ (is_Some (gateways self !! gateway_name) ->
      forall ids,
        r.1 = inr ids ->
        ids <> []
        /\ exists events,
             length events = length ids
             /\ event_queue r.2 = event_queue self ++ events)
  /\ (forall ids,
        r.1 = inr ids ->
        intent i vt_symbol volume gateway_name self = (ids, r.2))
  /\ ((forall received req, raising gateway_name received req = None) ->
      r = lift (intent i vt_symbol volume gateway_name) self)
  /\ (forall e,
        r.1 = inl e ->
        is_Some (gateways self !! gateway_name)
        /\ exists received req, raising gateway_name received req = Some e)
  /\ (forall tick contract gateway,
        ticks self !! vt_symbol = Some tick ->
        contracts self !! vt_symbol = Some contract ->
        gateways self !! gateway_name = Some gateway ->
        (intent_offset i = OPEN
         \/ exists position,
              intent_offset i = CLOSE
              /\ positions self !! opposing_positionid i gateway_name contract
                 = Some position
              /\ volume
                 <= PositionData.volume position
                    - PositionData.frozen position) ->
        exists reqs,
          reqs <> []
          /\ received gateway_name
               (intent i vt_symbol volume gateway_name self).2
             = Gateway.sent_orders gateway ++ reqs
          /\ forall k req e,
               reqs !! k = Some req ->
               (forall j req',
                  (j < k)%nat -> reqs !! j = Some req' ->
                  raising gateway_name
                    (Gateway.sent_orders gateway ++ take j reqs) req'
                  = None) ->
               raising gateway_name
                 (Gateway.sent_orders gateway ++ take k reqs) req
               = Some e ->
               r.1 = inl e
               /\ received gateway_name r.2
                  = Gateway.sent_orders gateway ++ take k reqs
               /\ (exists events,
                     length events = k
                     /\ event_queue r.2 = event_queue self ++ events)
               /\ same_caches self r.2).
Proof.
  cbv zeta.
  assert (Hreturned : forall ids,
            (Raises.intent raising i vt_symbol volume gateway_name self).1
            = inr ids ->
            intent i vt_symbol volume gateway_name self
            = (ids, (Raises.intent raising i vt_symbol volume gateway_name
                       self).2)).
  { intros ids Hr.
    destruct (raises_intent_bridge raising i vt_symbol volume gateway_name
                self) as [[H _] | (reqs & _ & Hrun & H)].
    - rewrite H, lift_run in Hr |- *. cbn [fst snd] in Hr |- *.
      injection Hr as <-.
      destruct (intent i vt_symbol volume gateway_name self). reflexivity.
    - rewrite H in Hr |- *. rewrite Hrun.
      apply raises_send_reqs_returns with (raising := raising).
      destruct (Raises.send_reqs raising reqs gateway_name [] self)
        as [res self']. simpl in Hr. subst res. reflexivity. }
  assert (Haborted : forall msg,
            aborted msg gateway_name self
              (intent i vt_symbol volume gateway_name self) ->
            (Raises.intent raising i vt_symbol volume gateway_name self).1
            = inr [""]
            /\ aborted msg gateway_name self
                 ([""],
                  (Raises.intent raising i vt_symbol volume gateway_name
                     self).2)).
  { intros msg Hab.
    rewrite (raises_intent_aborted raising _ _ _ _ _ _ Hab), lift_run.
    destruct Hab as (Hids & Hq & Hg). unfold aborted. cbn [fst snd].
    rewrite Hids. auto. }
  split; [|split; [|split; [|split; [|split; [|split; [|split; [|split]]]]]]].
  - intros H. apply Haborted, intent_missing_market_data, H.
  - intros tick contract Ht Hc Ho Hp.
    apply Haborted, (intent_close_no_position _ _ _ _ _ _ _ Ht Hc Ho Hp).
  - intros tick contract position Ht Hc Ho Hp Hlt.
    apply Haborted,
      (intent_close_insufficient _ _ _ _ _ _ _ _ Ht Hc Ho Hp Hlt).
  - intros Hg.
    destruct (raises_intent_bridge raising i vt_symbol volume gateway_name
                self) as [[H (msg & Hab)] | (reqs & Hne & Hrun & H)].
    + rewrite H, lift_run. cbn [fst snd].
      destruct Hab as (Hids & Hq & Hgs). rewrite Hids.
      exists [""]. split; [reflexivity|]. split; [discriminate|].
      split; [repeat constructor|]. split; [exact Hgs|].
      intros tick contract Ht Hc Hpass.
      destruct (intent_checks_pass i vt_symbol volume gateway_name tick
                  contract self Ht Hc Hpass) as (reqs & Hne & _ & Hrun).
      exfalso. apply (send_reqs_not_aborted reqs msg gateway_name self Hne).
      rewrite <- Hrun. repeat split; assumption.
    + rewrite H, (raises_send_reqs_unregistered _ _ _ _ _ Hg). simpl.
      eexists. split; [reflexivity|].
      split; [destruct reqs; [congruence|discriminate]|].
      split; [|split; [reflexivity|intros; reflexivity]].
      apply Forall_forall. intros id Hin.
      apply list_elem_of_fmap in Hin as (req & -> & _). reflexivity.
  - intros [gateway Hg] ids Hr. apply Hreturned in Hr.
    destruct (intent_outcome i vt_symbol volume gateway_name self)
      as [(msg & Hids & Hq & _) | (tick & contract & reqs & _ & _ & Hne & _
                                   & Hrun)].
    + rewrite Hr in Hids, Hq. simpl in Hids, Hq. subst ids.
      split; [discriminate|]. eexists. split; [|exact Hq]. reflexivity.
    + rewrite Hrun, (send_reqs_registered _ _ _ _ _ Hg) in Hr.
      injection Hr as <- <-. simpl. split.
      * intros H. apply (f_equal length) in H.
        rewrite length_replies in H. destruct reqs; [congruence|discriminate].
      * eexists. split; [|reflexivity].
        rewrite length_zip_with, !length_replies. lia.
  - exact Hreturned.
  - intros Hnever.
    destruct (raises_intent_bridge raising i vt_symbol volume gateway_name
                self) as [[H _] | (reqs & _ & Hrun & H)]; [exact H|].
    rewrite H, (raises_send_reqs_never _ _ _ _ _ Hnever), !lift_run, Hrun.
    reflexivity.
  - intros e Hr.
    destruct (raises_intent_bridge raising i vt_symbol volume gateway_name
                self) as [[H _] | (reqs & _ & _ & H)].
    + rewrite H, lift_run in Hr. discriminate.
    + rewrite H in Hr. apply (raises_send_reqs_raised _ _ _ _ _ _ Hr).
  - intros tick contract gateway Ht Hc Hg Hpass.
    destruct (raises_intent_legs raising i vt_symbol volume gateway_name tick
                contract self Ht Hc Hpass) as (reqs & Hne & Hrun & H).
    exists reqs. split; [exact Hne|]. split.
    + rewrite Hrun, (send_reqs_registered _ _ _ _ _ Hg). simpl.
      apply received_after_send.
    + intros k req e Hk Hbefore Hraise. rewrite H.
      rewrite (raises_send_reqs_first_raise raising reqs gateway_name gateway
                 [] self k req e Hg Hk Hbefore Hraise).
      simpl. split; [reflexivity|]. split; [apply received_after_send|].
      split; [|apply after_send_same_caches].
      eexists. split; [|reflexivity].
      rewrite length_zip_with, length_replies, length_take.
      apply lookup_lt_Some in Hk. lia.
Qed.

Lemma failures_resolve_locally_witness :
  let self := example_engine SHFE 10 1 4 in
  let e := Raised "ConnectionError" in
  let r := Raises.intent (example_raising e) Sell "X.SHFE" 5 "G1" self in
  r.1 = inl e
  /\ received "G1" r.2 = [OrderRequest.mk "X" SHFE SHORT LIMIT 2 97 CLOSETODAY]
  /\ gateways self !! "G2" = None
  /\ (Raises.intent (example_raising e) Buy "X.SHFE" 5 "G2" self).2 = self.
Proof.
  cbv zeta.
  pose proof (failures_resolve_locally
                (example_raising (Raised "ConnectionError")) Sell "X.SHFE" 5
                "G1" (example_engine SHFE 10 1 4))
    as (_ & _ & _ & _ & _ & _ & _ & _ & Hraise).
  pose proof (failures_resolve_locally
                (example_raising (Raised "ConnectionError")) Buy "X.SHFE" 5
                "G2" (example_engine SHFE 10 1 4))
    as (_ & _ & _ & Hunregistered & _).
  cbv zeta in Hraise, Hunregistered.
  destruct (Hraise (example_tick SHFE) (example_contract SHFE) G1
              eq_refl eq_refl eq_refl)
    as (reqs & _ & Hlegs & Hfirst).
  { right. exists (example_position SHFE 10 1 4).
    split; [reflexivity|]. split; [reflexivity|]. vm_compute. discriminate. }
  simpl in Hlegs. subst reqs.
  destruct (Hfirst 1%nat _ (Raised "ConnectionError") eq_refl)
    as (Hr & Hreceived & _).
  { intros j req' Hj Hreq'. destruct j; [|lia].
    injection Hreq' as <-. reflexivity. }
  { reflexivity. }
  destruct (Hunregistered eq_refl) as (ids & _ & _ & _ & _ & Hsame).
  split; [exact Hr|]. split; [exact Hreceived|]. split; [reflexivity|].
  exact (Hsame (example_tick SHFE) (example_contract SHFE) eq_refl eq_refl
           (or_introl eq_refl)).
Defined.
